(** * A verification model of [pbIII.engines.speech.BrokenRadio]

    Shallow embedding of the schedule construction ([BrokenRadio.__init__],
    [BrokenRadio.detect_files]) and of the parameter generation of
    [BrokenRadio.render], in [src/pbIII/engines/speech.py].

    Modelling conventions:
    - durations (seconds, Python floats) are rationals [Q];
    - Python's global [random] module is an explicit MT19937 state threaded
      through the code (the source reseeds it with [random.seed]);
    - infinite iterators ([infit.InfIt], [source_decider], level streams) are
      [Stream]s: [next(it)] is [hd], the advanced iterator is [tl];
    - raised exceptions are the [Err] branch of a small result monad. *)

From Stdlib Require Import ZArith QArith Qabs Lia Lqa List Streams Bool Ascii String.
From Stdlib Require Import Permutation Sorted.
From stdpp Require Import base gmap strings.
Import ListNotations.
Open Scope Z_scope.

(* ------------------------------------------------------------------ *)
(** ** Python's [random] module (CPython [_randommodule.c], [random.py]) *)
(* ------------------------------------------------------------------ *)

Module PyRandom.

Definition N_ : nat := 624.
Definition M_ : nat := 397.
Definition mask32 : Z := 4294967295.

Fixpoint znth (l : list Z) (i : nat) : Z :=
  match l, i with
  | [], _ => 0
  | x :: _, O => x
  | _ :: r, S i' => znth r i'
  end.

Fixpoint zset (l : list Z) (i : nat) (v : Z) : list Z :=
  match l, i with
  | [], _ => []
  | _ :: r, O => v :: r
  | x :: r, S i' => x :: zset r i' v
  end.

(** The generator state: the 624 words [mt] and the read index. *)
Record state := mkState { mt : list Z; index : nat }.

(** [init_genrand(s)]: mt[i] = 1812433253 * (mt[i-1] ^ (mt[i-1] >> 30)) + i. *)
Fixpoint init_genrand_from (prev : Z) (i : nat) (fuel : nat) : list Z :=
  match fuel with
  | O => []
  | S f =>
      let x := Z.land (1812433253 * Z.lxor prev (Z.shiftr prev 30) + Z.of_nat i) mask32 in
      x :: init_genrand_from x (S i) f
  end.

Definition init_genrand (s : Z) : list Z :=
  let s0 := Z.land s mask32 in s0 :: init_genrand_from s0 1 (N_ - 1).

(** First loop of [init_by_array]: [k] steps over [i] and the key index [j]. *)
Fixpoint init_by_array_loop1 (mt : list Z) (key : list Z) (i j : nat) (k : nat)
  : list Z * nat :=
  match k with
  | O => (mt, i)
  | S k' =>
      let p := znth mt (i - 1) in
      let v := Z.land (Z.lxor (znth mt i) (Z.lxor p (Z.shiftr p 30) * 1664525)
                        + znth key j + Z.of_nat j) mask32 in
      let mt1 := zset mt i v in
      let '(mt2, i2) :=
        if Nat.leb N_ (S i) then (zset mt1 0 (znth mt1 (N_ - 1)), 1%nat)
        else (mt1, S i) in
      let j2 := if Nat.leb (length key) (S j) then 0%nat else S j in
      init_by_array_loop1 mt2 key i2 j2 k'
  end.

Fixpoint init_by_array_loop2 (mt : list Z) (i : nat) (k : nat) : list Z :=
  match k with
  | O => mt
  | S k' =>
      let p := znth mt (i - 1) in
      let v := Z.land (Z.lxor (znth mt i) (Z.lxor p (Z.shiftr p 30) * 1566083941)
                        - Z.of_nat i) mask32 in
      let mt1 := zset mt i v in
      let '(mt2, i2) :=
        if Nat.leb N_ (S i) then (zset mt1 0 (znth mt1 (N_ - 1)), 1%nat)
        else (mt1, S i) in
      init_by_array_loop2 mt2 i2 k'
  end.

Definition init_by_array (key : list Z) : state :=
  let mt0 := init_genrand 19650218 in
  let '(mt1, i1) := init_by_array_loop1 mt0 key 1 0 (Nat.max N_ (length key)) in
  let mt2 := init_by_array_loop2 mt1 i1 (N_ - 1) in
  mkState (zset mt2 0 2147483648) N_.

(** The 32-bit chunks of [abs(n)], least significant first. *)
Fixpoint key_chunks (n : Z) (fuel : nat) : list Z :=
  match fuel with
  | O => []
  | S f => if Z.leb n mask32 then [n]
           else Z.land n mask32 :: key_chunks (Z.shiftr n 32) f
  end.

(** [random.seed(n)] for an [int] seed: the previous state is discarded. *)
Definition seed (n : Z) : state := init_by_array (key_chunks (Z.abs n) 64).

(** The twist, regenerating all 624 words in place. *)
Fixpoint twist_loop (mt : list Z) (kk : nat) (fuel : nat) : list Z :=
  match fuel with
  | O => mt
  | S f =>
      let y := Z.lor (Z.land (znth mt kk) 2147483648)
                     (Z.land (znth mt ((kk + 1) mod N_)) 2147483647) in
      let mag := if Z.odd y then 2567483615 else 0 in
      let v := Z.lxor (Z.lxor (znth mt ((kk + M_) mod N_)) (Z.shiftr y 1)) mag in
      twist_loop (zset mt kk v) (S kk) f
  end.

Definition temper (y0 : Z) : Z :=
  let y1 := Z.lxor y0 (Z.shiftr y0 11) in
  let y2 := Z.lxor y1 (Z.land (Z.shiftl y1 7) 2636928640) in
  let y3 := Z.lxor y2 (Z.land (Z.shiftl y2 15) 4022730752) in
  Z.lxor y3 (Z.shiftr y3 18).

(** [genrand_uint32]. *)
Definition genrand (s : state) : Z * state :=
  let '(m, i) := if Nat.leb N_ (index s) then (twist_loop (mt s) 0 N_, 0%nat)
                 else (mt s, index s) in
  (temper (znth m i), mkState m (S i)).

(** [getrandbits(k)] for [0 < k <= 32]. *)
Definition getrandbits (k : nat) (s : state) : Z * state :=
  let '(y, s') := genrand s in (Z.shiftr y (32 - Z.of_nat k), s').

(** [_randbelow_with_getrandbits(n)]: rejection sampling on [n.bit_length()]
    bits.  The [while r >= n] loop is unrolled [fuel] times; running out of
    fuel (probability below 2^-fuel) returns 0. *)
Fixpoint randbelow_loop (n : Z) (k : nat) (s : state) (fuel : nat) : Z * state :=
  match fuel with
  | O => (0, s)
  | S f => let '(r, s') := getrandbits k s in
           if Z.ltb r n then (r, s') else randbelow_loop n k s' f
  end.

Definition randbelow (n : Z) (s : state) : Z * state :=
  randbelow_loop n (Z.to_nat (Z.log2 n + 1)) s 256.

(** [x[i], x[j] = x[j], x[i]]: the right-hand side is read first, then
    [x[i]] and [x[j]] are assigned in that order. *)
Definition swap {A} (x : list A) (i j : nat) (d : A) : list A :=
  let xj := nth j x d in
  let xi := nth i x d in
  <[j := xi]> (<[i := xj]> x).

(** [random.shuffle(x)]: for i in reversed(range(1, len(x))):
    j = randbelow(i + 1); x[i], x[j] = x[j], x[i]. *)
Fixpoint shuffle_loop {A} (i : nat) (x : list A) (s : state) : list A * state :=
  match i with
  | O => (x, s)
  | S i' =>
      match x with
      | [] => (x, s)
      | d :: _ =>
          let '(j, s') := randbelow (Z.of_nat (S i)) s in
          shuffle_loop i' (swap x i (Z.to_nat j) d) s'
      end
  end.

Definition shuffle {A} (x : list A) (s : state) : list A * state :=
  shuffle_loop (length x - 1) x s.

(** [random.random()]: (a * 2^26 + b) / 2^53 with a = y1 >> 5, b = y2 >> 6. *)
Definition random (s : state) : Q * state :=
  let '(y1, s1) := genrand s in
  let '(y2, s2) := genrand s1 in
  ((Z.shiftr y1 5 * 67108864 + Z.shiftr y2 6) # 9007199254740992, s2).

(** [random.uniform(a, b)] = a + (b - a) * random(). *)
Definition uniform (a b : Q) (s : state) : Q * state :=
  let '(r, s') := random s in ((a + (b - a) * r)%Q, s').

End PyRandom.

(* ------------------------------------------------------------------ *)
(** ** Exceptions, Python indexing and slicing *)
(* ------------------------------------------------------------------ *)

(** The messages of the [ValueError]s raised in [speech.py] (and by the
    builtin [min] on an empty sequence). *)
Inductive value_error :=
| UnknownOrder (order : string)             (* "Unknown order: {}." *)
| UnknownInterlocking (interlocking : string) (* "Unknown interlocking: {}." *)
| NotEnoughSamples (duration maxima : Q)    (* "Not enough samples for duration {}. Max duration {}" *)
| MinOfEmpty.                               (* min() arg is an empty sequence *)

Inductive py_exn :=
| ValueError (e : value_error)
| OSError (path : string)   (* raised by os.listdir *)
| IndexError.

Definition exn_name (e : py_exn) : string :=
  match e with
  | ValueError _ => "ValueError"
  | OSError _ => "OSError"
  | IndexError => "IndexError"
  end.

Inductive result (A : Type) :=
| Ok (a : A)
| Err (e : py_exn).
Arguments Ok {A} a.
Arguments Err {A} e.

Definition bind {A B} (m : result A) (k : A -> result B) : result B :=
  match m with Ok a => k a | Err e => Err e end.

Notation "'let!' x ':=' m 'in' k" := (bind m (fun x => k))
  (at level 200, x name, m at level 100, k at level 200).

(** [l[i]] for an [int] index [i]: negative indices count from the end. *)
Definition py_index {A} (l : list A) (i : Z) : result A :=
  let n := Z.of_nat (length l) in
  let i' := if Z.ltb i 0 then i + n else i in
  if Z.leb 0 i' && Z.ltb i' n then
    match nth_error l (Z.to_nat i') with Some x => Ok x | None => Err IndexError end
  else Err IndexError.

(** [l[k:]] for an [int] [k]. *)
Definition py_slice_from {A} (k : Z) (l : list A) : list A :=
  let n := Z.of_nat (length l) in
  skipn (Z.to_nat (if Z.ltb k 0 then Z.max 0 (k + n) else k)) l.

(** Python's [zip] of three sequences: stops at the shortest. *)
Fixpoint zip3 {A B C} (a : list A) (b : list B) (c : list C) : list (A * B * C) :=
  match a, b, c with
  | x :: a', y :: b', z :: c' => (x, y, z) :: zip3 a' b' c'
  | _, _, _ => []
  end.

(** Python's [sum] over a sequence of floats, from 0, left to right. *)
Definition qsum (l : list Q) : Q := fold_left Qplus l 0%Q.

(** [next(it)] drawn [n] times from an infinite iterator. *)
Fixpoint draws {A} (n : nat) (it : Stream A) : list A * Stream A :=
  match n with
  | O => ([], it)
  | S n' => let '(xs, it') := draws n' (Streams.tl it) in (Streams.hd it :: xs, it')
  end.

(** [infit.Cycle(xs)]: cycles through a non-empty tuple forever. *)
CoFixpoint cycle_from {A} (xs : list A) (rest : list A) (d : A) : Stream A :=
  match rest with
  | [] => match xs with
          | [] => Cons d (cycle_from xs [] d)
          | x :: r => Cons x (cycle_from xs r d)
          end
  | x :: r => Cons x (cycle_from xs r d)
  end.

Definition Cycle {A} (xs : list A) (d : A) : Stream A := cycle_from xs xs d.

(* ------------------------------------------------------------------ *)
(** ** Stable sorting ([sorted] with a key) *)
(* ------------------------------------------------------------------ *)

Section Sort.
Context {A : Type} (le : A -> A -> bool).

(** Insertion before the first element that is strictly greater keeps equal
    elements in input order, as Python's stable [sorted] does. *)
Fixpoint insert_sorted (x : A) (l : list A) : list A :=
  match l with
  | [] => [x]
  | y :: r => if le x y then x :: y :: r else y :: insert_sorted x r
  end.

Definition stable_sort (l : list A) : list A := fold_right insert_sorted [] l.

End Sort.

(* ------------------------------------------------------------------ *)
(** ** [natsort.natsorted] (default algorithm: unsigned integers) *)
(* ------------------------------------------------------------------ *)

Module Natsort.

(** A natsort key component: a text run or an integer run. *)
Inductive chunk := CStr (s : list ascii) | CNum (n : N).

Definition is_digit (c : ascii) : bool :=
  let n := nat_of_ascii c in Nat.leb 48 n && Nat.leb n 57.

(** Maximal runs of digits and of non-digits. *)
Fixpoint runs (cs : list ascii) : list (bool * list ascii) :=
  match cs with
  | [] => []
  | c :: r =>
      match runs r with
      | (b, t) :: rest =>
          if Bool.eqb (is_digit c) b then (b, c :: t) :: rest
          else (is_digit c, [c]) :: (b, t) :: rest
      | [] => [(is_digit c, [c])]
      end
  end.

Definition digits_value (cs : list ascii) : N :=
  fold_left (fun acc c => (10 * acc + N.of_nat (nat_of_ascii c - 48))%N) cs 0%N.

(** The key: text and integer runs alternate; a leading integer gets an
    empty text run in front of it. *)
Definition natsort_key (s : string) : list chunk :=
  let cs := map (fun bt : bool * list ascii =>
                   if fst bt then CNum (digits_value (snd bt)) else CStr (snd bt))
                (runs (list_ascii_of_string s)) in
  match cs with
  | CNum _ :: _ => CStr [] :: cs
  | _ => cs
  end.

Fixpoint cmp_text (a b : list ascii) : comparison :=
  match a, b with
  | [], [] => Eq
  | [], _ => Lt
  | _, [] => Gt
  | x :: a', y :: b' =>
      match Nat.compare (nat_of_ascii x) (nat_of_ascii y) with
      | Eq => cmp_text a' b'
      | c => c
      end
  end.

(** Text and integer runs never meet at the same position of two keys; the
    order given to that case is immaterial. *)
Definition cmp_chunk (a b : chunk) : comparison :=
  match a, b with
  | CStr s, CStr t => cmp_text s t
  | CNum m, CNum n => N.compare m n
  | CStr _, CNum _ => Lt
  | CNum _, CStr _ => Gt
  end.

(** Python tuple comparison. *)
Fixpoint cmp_key (a b : list chunk) : comparison :=
  match a, b with
  | [], [] => Eq
  | [], _ => Lt
  | _, [] => Gt
  | x :: a', y :: b' =>
      match cmp_chunk x y with
      | Eq => cmp_key a' b'
      | c => c
      end
  end.

Definition key_le (a b : string) : bool :=
  match cmp_key (natsort_key a) (natsort_key b) with Gt => false | _ => true end.

Definition natsorted (l : list string) : list string := stable_sort key_le l.

End Natsort.

(* ------------------------------------------------------------------ *)
(** ** Helpers from [mu.utils.tools] used by [BrokenRadio] *)
(* ------------------------------------------------------------------ *)

Module Tools.

(** [enumerate] followed by a map. *)
Definition enum_map {A B} (f : nat -> A -> B) (l : list A) : list B :=
  map (fun p => f (fst p) (snd p)) (combine (seq 0 (length l)) l).

(** Modelled from the spec: [mu.utils.tools.euclidic_interlocking] (the
    library [mu] is not in src/).  Spec 4.2: each group of length [L_i]
    places its [j]-th item at offset [j * total / L_i]; all groups are
    merged by increasing offset, ties broken by group (source) index.
    Offsets are compared without the common factor [total]:
    [j1 / L1 <= j2 / L2] iff [j1 * L2 <= j2 * L1]. *)
Definition tag_group {A} (g : nat) (xs : list A) : list (nat * nat * nat * A) :=
  enum_map (fun j x => (g, j, length xs, x)) xs.

Definition offset_le {A} (a b : nat * nat * nat * A) : bool :=
  let '(g1, j1, l1, _) := a in
  let '(g2, j2, l2, _) := b in
  Nat.ltb (j1 * l2) (j2 * l1) || (Nat.eqb (j1 * l2) (j2 * l1) && Nat.leb g1 g2).

Definition euclidic_interlocking {A} (groups : list (list A)) : list A :=
  map snd (stable_sort offset_le (concat (enum_map tag_group groups))).

(** Modelled from the spec: [mu.utils.tools.accumulate_from_zero] (not in
    src/): the running sums of a sequence, starting with 0. *)
Fixpoint running_sums (acc : Q) (l : list Q) : list Q :=
  match l with
  | [] => []
  | x :: r => (acc + x)%Q :: running_sums (acc + x)%Q r
  end.

Definition accumulate_from_zero (l : list Q) : list Q := 0%Q :: running_sums 0%Q l.

(** Modelled from the spec: [mu.utils.tools.find_closest_index] (not in
    src/).  Spec 4.3: "if no exact match, take the closest index not
    exceeding it": among the entries [<= item], the index of the greatest
    one (the later index on equal entries, the longest prefix); index 0
    when no entry is [<= item]. *)
Fixpoint closest_below (item : Q) (data : list Q) (i : nat) (best : option (nat * Q))
  : option (nat * Q) :=
  match data with
  | [] => best
  | x :: r =>
      let best' :=
        if Qle_bool x item then
          match best with
          | None => Some (i, x)
          | Some (_, bx) => if Qle_bool bx x then Some (i, x) else best
          end
        else best in
      closest_below item r (S i) best'
  end.

Definition find_closest_index (item : Q) (data : list Q) : nat :=
  match closest_below item data 0 None with Some (i, _) => i | None => 0 end.

(** The other reading of "closest": the index of the entry nearest to
    [item] in absolute difference (first one on ties). *)
Fixpoint nearest_from (item : Q) (data : list Q) (i : nat) (best : nat * Q) : nat * Q :=
  match data with
  | [] => best
  | x :: r =>
      let d := Qabs (x - item) in
      nearest_from item r (S i) (if Qle_bool (snd best) d then best else (i, d))
  end.

Definition find_closest_index_nearest (item : Q) (data : list Q) : nat :=
  match data with
  | [] => 0
  | x :: r => fst (nearest_from item r 1 (0%nat, Qabs (x - item)))
  end.

End Tools.

(* ------------------------------------------------------------------ *)
(** ** [BrokenRadio]: catalog, schedule and duration check *)
(* ------------------------------------------------------------------ *)

Module Radio.

Definition supported_order (o : string) : bool :=
  String.eqb o "original" || String.eqb o "reverse" || String.eqb o "shuffle".

(** [f.endswith("wav")]. *)
Definition ends_with_wav (f : string) : bool :=
  let n := String.length f in
  Nat.leb 3 n && String.eqb (String.substring (n - 3) 3 f) "wav".

(** One iteration of the loop of [detect_files]: the order check, then
    [natsort.natsorted(os.listdir(path))[skip_n_samples:]], the reordering,
    and last the [wav] filter and [path + f]. *)
Definition detect_source (listdir : string -> option (list string))
    (path order : string) (skip_n_samples : Z) (s : PyRandom.state)
    : result (list string * PyRandom.state) :=
  if negb (supported_order order) then Err (ValueError (UnknownOrder order)) else
  match listdir path with
  | None => Err (OSError path)
  | Some names =>
      let all_files := py_slice_from skip_n_samples (Natsort.natsorted names) in
      let '(all_files', s') :=
        if String.eqb order "reverse" then (rev all_files, s)
        else if String.eqb order "shuffle" then PyRandom.shuffle all_files s
        else (all_files, s) in
      Ok (map (String.append path) (filter ends_with_wav all_files'), s')
  end.

Fixpoint detect_files_loop (listdir : string -> option (list string))
    (l : list (string * string * Z)) (s : PyRandom.state)
    : result (list (list string) * PyRandom.state) :=
  match l with
  | [] => Ok ([], s)
  | (path, order, skip) :: rest =>
      let! r1 := detect_source listdir path order skip s in
      let! r2 := detect_files_loop listdir rest (snd r1) in
      Ok (fst r1 :: fst r2, snd r2)
  end.

(** [BrokenRadio.detect_files]: [random_shuffle] is the global [random]
    module, reseeded with 10 first, so the incoming state [s] is dropped. *)
Definition detect_files (listdir : string -> option (list string))
    (sources order_per_source : list string) (skip_n_samples_per_source : list Z)
    (s : PyRandom.state) : result (list (list string) * PyRandom.state) :=
  detect_files_loop listdir (zip3 sources order_per_source skip_n_samples_per_source)
    (PyRandom.seed 10).

(** [min(len(paths) for paths in path_per_source)]. *)
Definition py_min (l : list nat) : result nat :=
  match l with
  | [] => Err (ValueError MinOfEmpty)
  | x :: r => Ok (fold_left Nat.min r x)
  end.

(** Lines 213-218: [maxima_n_events]. *)
Definition maxima_n_events_of (interlocking : string) (path_per_source : list (list string))
    : result nat :=
  if String.eqb interlocking "parallel" then py_min (map (@length _) path_per_source)
  else if String.eqb interlocking "sequential" then
    Ok (list_sum (map (@length _) path_per_source))
  else Err (ValueError (UnknownInterlocking interlocking)).

(** Lines 220-231: [sample_key_per_event], and the advanced [source_decider]. *)
Definition sample_keys (interlocking : string) (path_per_source : list (list string))
    (maxima_n_events : nat) (source_decider : Stream Z) : list (Z * nat) * Stream Z :=
  if String.eqb interlocking "parallel" then
    let '(srcs, d') := draws maxima_n_events source_decider in
    (combine srcs (seq 0 maxima_n_events), d')
  else if String.eqb interlocking "sequential" then
    (Tools.euclidic_interlocking
       (Tools.enum_map (fun idx source =>
          map (fun i => (Z.of_nat idx, i)) (seq 0 (length source))) path_per_source),
     source_decider)
  else ([], source_decider).

Fixpoint mapR {A B} (f : A -> result B) (l : list A) : result (list B) :=
  match l with
  | [] => Ok []
  | x :: r => let! y := f x in let! ys := mapR f r in Ok (y :: ys)
  end.

(** [table[source_idx][sample_idx]]. *)
Definition lookup_key {A} (table : list (list A)) (k : Z * nat) : result A :=
  let! row := py_index table (fst k) in py_index row (Z.of_nat (snd k)).

(** [tuple(dps - 1 + next(pause_per_event) for dps in duration_per_sample)]. *)
Fixpoint event_durations (dps : list Q) (pause : Stream Q) : list Q * Stream Q :=
  match dps with
  | [] => ([], pause)
  | d :: r =>
      let '(rest, p') := event_durations r (Streams.tl pause) in
      ((d - 1 + Streams.hd pause)%Q :: rest, p')
  end.

Definition Qltb (a b : Q) : bool := negb (Qle_bool b a).

(** The arguments of [BrokenRadio.__init__] that the schedule depends on. *)
Record config := mkConfig {
  sources : list string;
  order_per_source : option (list string);
  skip_n_samples_per_source : option (list Z);
  source_decider : option (Stream Z);
  duration : Q;
  interlocking : string;
  pause_per_event : Stream Q }.

(** The file system seen by [os.listdir] and [pyo.sndinfo] (duration). *)
Record env := mkEnv {
  listdir : string -> option (list string);
  sndinfo_duration : string -> Q }.

Record radio := mkRadio {
  path_per_source : list (list string);
  data_per_source : list (list Q);
  maxima_n_events : nat;
  sample_key_per_event : list (Z * nat);
  sample_path_per_event : list string;
  duration_per_sample : list Q;
  duration_per_event : list Q;
  maxima_duration : Q;
  r_duration : Q;
  r_source_decider : Stream Z;
  r_pause_per_event : Stream Q }.

(** Lines 168-175: the defaults of [order_per_source], [source_decider]
    and [skip_n_samples_per_source]. *)
Definition orders_of (c : config) : list string :=
  match order_per_source c with
  | Some o => o | None => map (fun _ => "original"%string) (sources c) end.

Definition decider_of (c : config) : Stream Z :=
  match source_decider c with
  | Some d => d
  | None => Cycle (map Z.of_nat (seq 0 (length (sources c)))) 0 end.

Definition skips_of (c : config) : list Z :=
  match skip_n_samples_per_source c with
  | Some k => k | None => map (fun _ => 0) (sources c) end.

(** [BrokenRadio.__init__] up to line 246 (the effect dictionaries are
    modelled in [SharedDefaults]): the radio with its [maxima_duration],
    before the duration check of lines 248-254. *)
Definition prepare (e : env) (c : config) (s : PyRandom.state)
    : result (radio * PyRandom.state) :=
  let orders := orders_of c in
  let decider := decider_of c in
  let skips := skips_of c in
  let! r := detect_files (listdir e) (sources c) orders skips s in
  let pps := fst r in
  let data := map (map (sndinfo_duration e)) pps in
  let! n := maxima_n_events_of (interlocking c) pps in
  let '(keys, decider') := sample_keys (interlocking c) pps n decider in
  let! paths := mapR (lookup_key pps) keys in
  let! dps := mapR (lookup_key data) keys in
  let '(dpe, pause') := event_durations dps (pause_per_event c) in
  Ok (mkRadio pps data n keys paths dps dpe (qsum dpe) (duration c) decider' pause', snd r).

(** [BrokenRadio.__init__]: [assert self.maxima_duration > self.duration],
    turned into a [ValueError]. *)
Definition init (e : env) (c : config) (s : PyRandom.state)
    : result (radio * PyRandom.state) :=
  let! p := prepare e c s in
  let r := fst p in
  if Qltb (r_duration r) (maxima_duration r) then Ok p
  else Err (ValueError (NotEnoughSamples (r_duration r) (maxima_duration r))).

End Radio.

(* ------------------------------------------------------------------ *)
(** ** [BrokenRadio.render]: budget, effect levels, ambient noise *)
(* ------------------------------------------------------------------ *)

Module Render.
Import Radio.

(** [BrokenRadio.__effects]. *)
Inductive effect :=
| Original | Harmonizer | Filter | Distortion | Ringmodulation | Noise | Lorenz | Chenlee.

Definition effects : list effect :=
  [Original; Harmonizer; Filter; Distortion; Ringmodulation; Noise; Lorenz; Chenlee].

Definition effect_name (e : effect) : string :=
  match e with
  | Original => "original" | Harmonizer => "harmonizer" | Filter => "filter"
  | Distortion => "distortion" | Ringmodulation => "ringmodulation"
  | Noise => "noise" | Lorenz => "lorenz" | Chenlee => "chenlee"
  end.

Definition effect_eqb (a b : effect) : bool := String.eqb (effect_name a) (effect_name b).

(** An [activity_levels.ActivityLevel] object (library [mu], not in src/):
    a stateful callable taking an activity level and answering a boolean.
    It is left open as an arbitrary Mealy machine. *)
CoInductive gate := Gate (call : Z -> bool * gate).

Definition gate_call (g : gate) (lv : Z) : bool * gate :=
  match g with Gate f => f lv end.

(** Per effect: [activity_object_per_effect[effect]],
    [activity_lv_per_effect[effect]] and [level_per_effect[effect]]. *)
Record effect_obj := mkEffect {
  activity_object : gate;
  activity_lv : Z;
  level : Stream Q }.

(** [tuple(next(level) if activity_object(activity_lv) else 0 for i in dpe)]. *)
Fixpoint effect_levels (n : nat) (g : gate) (lv : Z) (lvl : Stream Q)
    : list Q * gate * Stream Q :=
  match n with
  | O => ([], g, lvl)
  | S n' =>
      let '(b, g') := gate_call g lv in
      let '(x, lvl') := if b then (Streams.hd lvl, Streams.tl lvl) else (0%Q, lvl) in
      let '(xs, g'', lvl'') := effect_levels n' g' lv lvl' in
      (x :: xs, g'', lvl'')
  end.

(** The [lv_per_effect] dict comprehension, effect after effect. *)
Fixpoint lv_per_effect_loop (n : nat) (es : list effect) (objs : effect -> effect_obj)
    : list (effect * list Q) * (effect -> effect_obj) :=
  match es with
  | [] => ([], objs)
  | e :: r =>
      let o := objs e in
      let '(xs, g', lvl') := effect_levels n (activity_object o) (activity_lv o) (level o) in
      let objs' := fun e' => if effect_eqb e' e then mkEffect g' (activity_lv o) lvl' else objs e' in
      let '(rest, objs'') := lv_per_effect_loop n r objs' in
      ((e, xs) :: rest, objs'')
  end.

(** [tuple(random.uniform(a, b) for i in dpe)]. *)
Fixpoint uniform_draws (n : nat) (a b : Q) (s : PyRandom.state) : list Q * PyRandom.state :=
  match n with
  | O => ([], s)
  | S n' =>
      let '(u, s1) := PyRandom.uniform a b s in
      let '(us, s2) := uniform_draws n' a b s1 in
      (u :: us, s2)
  end.

(** The per-event arrays handed to [pyo.Events] that the model covers (the
    DSP parameter streams and the dynamic curve are not modelled). *)
Record render_out := mkRender {
  n_events : nat;
  ro_duration_per_event : list Q;
  ro_sample_path_per_event : list string;
  lv_per_effect : list (effect * list Q);
  ambient_noise_lv_per_event : list (Q * Q) }.

(** Lines 336-338: [tools.find_closest_index(self.duration,
    tools.accumulate_from_zero(self.duration_per_event))]. *)
Definition budget (duration : Q) (duration_per_event : list Q) : nat :=
  Tools.find_closest_index duration (Tools.accumulate_from_zero duration_per_event).

(** [BrokenRadio.render]: [random_ambient_noise_lv] is the global [random]
    module, reseeded with 1 first. *)
Definition render (r : radio) (objs : effect -> effect_obj) (s : PyRandom.state)
    : render_out * (effect -> effect_obj) * PyRandom.state :=
  let s0 := PyRandom.seed 1 in
  let n := budget (r_duration r) (duration_per_event r) in
  let dpe := firstn n (duration_per_event r) in
  let paths := firstn n (sample_path_per_event r) in
  let '(lvs, objs') := lv_per_effect_loop (length dpe) effects objs in
  let '(us, s1) := uniform_draws (length dpe) (1 # 5) (2 # 5) s0 in
  let amb := combine (0%Q :: us) us in
  (mkRender n dpe paths lvs amb, objs', s1).

End Render.

(* ------------------------------------------------------------------ *)
(** ** The mutable default arguments of [BrokenRadio.__init__] *)
(* ------------------------------------------------------------------ *)

Module SharedDefaults.

(** A Python heap holding dicts and the [infit.Cycle] objects stored in them. *)
Definition loc := positive.
Inductive val := VInt (z : Z) | VRef (l : loc).
Inductive obj := ODict (m : gmap string val) | OCycle (xs : list Z).
Record heap := mkHeap { objs : gmap loc obj; next_loc : loc }.

(** The [{}] defaults of [activity_lv_per_effect] and [level_per_effect],
    created once with the function. *)
Definition default_activity_lv_per_effect : loc := 1%positive.
Definition default_level_per_effect : loc := 2%positive.

Definition effect_names : list string := map Render.effect_name Render.effects.

Definition dict_get (h : heap) (l : loc) : gmap string val :=
  match objs h !! l with Some (ODict m) => m | _ => ∅ end.

Definition dict_update (h : heap) (l : loc) (k : string) (v : val) : heap :=
  mkHeap (<[l := ODict (<[k := v]> (dict_get h l))]> (objs h)) (next_loc h).

Definition alloc (h : heap) (o : obj) : loc * heap :=
  (next_loc h, mkHeap (<[next_loc h := o]> (objs h)) (Pos.succ (next_loc h))).

(** One iteration of [for effect in self.__effects] (lines 195-200). *)
Definition fill_effect (act lvl : loc) (h : heap) (effect : string) : heap :=
  let h1 := match dict_get h act !! effect with
            | Some _ => h
            | None => dict_update h act effect (VInt 0)
            end in
  match dict_get h1 lvl !! effect with
  | Some _ => h1
  | None => let '(c, h2) := alloc h1 (OCycle [1]) in dict_update h2 lvl effect (VRef c)
  end.

(** What the instance keeps: [self.level_per_effect = level_per_effect] and
    [self.activity_lv_per_effect = activity_lv_per_effect]. *)
Record instance := mkInstance {
  level_per_effect : loc;
  activity_lv_per_effect : loc }.

(** Lines 142-143 and 195-203, for an argument passed ([Some l]) or left to
    its default ([None]). *)
Definition init_dicts (h : heap) (activity_arg level_arg : option loc) : instance * heap :=
  let act := match activity_arg with Some l => l | None => default_activity_lv_per_effect end in
  let lvl := match level_arg with Some l => l | None => default_level_per_effect end in
  (mkInstance lvl act, fold_left (fill_effect act lvl) effect_names h).

(** Several constructions in a row, on one heap. *)
Fixpoint init_many (h : heap) (args : list (option loc * option loc)) : heap :=
  match args with
  | [] => h
  | (a, l) :: rest => init_many (snd (init_dicts h a l)) rest
  end.

End SharedDefaults.

(* ------------------------------------------------------------------ *)
(** ** Auxiliary functions used in the statements *)
(* ------------------------------------------------------------------ *)

Module Aux.

(** The number of leading entries [<= item]. *)
Fixpoint count_le (item : Q) (data : list Q) : nat :=
  match data with
  | [] => O
  | x :: r => if Qle_bool x item then S (count_le item r) else O
  end.

(** Equality of schedule keys, for [count_occ]. *)
Definition key_dec : forall a b : Z * nat, {a = b} + {a <> b} :=
  fun a b => decide (a = b).
Arguments key_dec : simpl never.

(** The catalog of one source in the order the spec describes it: filter to
    the sample extension, natural sort, drop [skip], reorder. *)
Definition detect_source_claimed (listdir : string -> option (list string))
    (path order : string) (skip_n_samples : Z) (s : PyRandom.state)
    : result (list string * PyRandom.state) :=
  if negb (Radio.supported_order order) then Err (ValueError (UnknownOrder order)) else
  match listdir path with
  | None => Err (OSError path)
  | Some names =>
      let files := py_slice_from skip_n_samples
                     (Natsort.natsorted (filter Radio.ends_with_wav names)) in
      let '(files', s') :=
        if String.eqb order "reverse" then (rev files, s)
        else if String.eqb order "shuffle" then PyRandom.shuffle files s
        else (files, s) in
      Ok (map (String.append path) files', s')
  end.

(** The answers of an activity gate called [n] times with level [lv]. *)
Fixpoint gate_answers (n : nat) (g : Render.gate) (lv : Z) : list bool :=
  match n with
  | O => []
  | S n' => let '(b, g') := Render.gate_call g lv in b :: gate_answers n' g' lv
  end.

(** How many of the answers are [true]. *)
Definition count_true (bs : list bool) : nat := count_occ Bool.bool_dec bs true.

End Aux.

(* ------------------------------------------------------------------ *)
(** ** Concrete inputs used by the examples below *)
(* ------------------------------------------------------------------ *)

Module Samples.
Import Radio Render.

CoFixpoint const_gate (b : bool) : gate := Gate (fun _ => (b, const_gate b)).

(** Every effect with a gate that always answers [b] and the default level
    stream [infit.Cycle((1,))]. *)
Definition const_objs (b : bool) : effect -> effect_obj :=
  fun _ => mkEffect (const_gate b) 0 (Cycle [1%Q] 1%Q).

(** One directory ["s/"] with three slices; ["b.wav"] is shorter than the
    one-second overlap subtracted in [dps - 1]. *)
Definition short_env : env :=
  mkEnv (fun p => if String.eqb p "s/" then Some ["a.wav"; "b.wav"; "c.wav"] else None)
        (fun f => if String.eqb f "s/a.wav" then (7 # 2)%Q
                  else if String.eqb f "s/b.wav" then (1 # 5)%Q else 11%Q).

Definition short_config : config :=
  mkConfig ["s/"] None None None (9 # 5)%Q "parallel" (Cycle [0%Q] 0%Q).

(** A built schedule with non-negative event durations. *)
Definition plain_radio : radio :=
  mkRadio [["s/a.wav"; "s/b.wav"; "s/c.wav"]] [[3%Q; 3%Q; 3%Q]] 3
          [(0, 0%nat); (0, 1%nat); (0, 2%nat)] ["s/a.wav"; "s/b.wav"; "s/c.wav"]
          [3%Q; 3%Q; 3%Q] [2%Q; 2%Q; 2%Q] 6%Q 5%Q (Cycle [0] 0) (Cycle [0%Q] 0%Q).

(** A directory whose listing holds a non-sample file. *)
(** The same directory with a requested duration equal to the total
    [5/2 - 4/5 + 10 = 117/10] of the event durations. *)
Definition tight_config : config :=
  mkConfig ["s/"] None None None (117 # 10)%Q "parallel" (Cycle [0%Q] 0%Q).

(** The radio built for [tight_config] before the duration check. *)
Definition tight_prepared : radio * PyRandom.state :=
  match prepare short_env tight_config (PyRandom.seed 0) with
  | Ok p => p
  | Err _ => (plain_radio, PyRandom.seed 0)
  end.

(** A configuration with an order name the code does not know. *)
Definition backwards_config : config :=
  mkConfig ["s/"] (Some ["backwards"]) None None (9 # 5)%Q "parallel" (Cycle [0%Q] 0%Q).

(** A configuration with an interlocking name the code does not know. *)
Definition zigzag_config : config :=
  mkConfig ["s/"] None None None (9 # 5)%Q "zigzag" (Cycle [0%Q] 0%Q).

Definition mixed_listdir (p : string) : option (list string) :=
  if String.eqb p "s/" then Some ["a.txt"; "b.wav"; "c.wav"] else None.

(** The heap right after the function definition: the two empty default
    dictionaries and nothing else. *)
Definition fresh_heap : SharedDefaults.heap :=
  SharedDefaults.mkHeap
    {[SharedDefaults.default_activity_lv_per_effect := SharedDefaults.ODict ∅;
      SharedDefaults.default_level_per_effect := SharedDefaults.ODict ∅]} 3%positive.

End Samples.

(* ------------------------------------------------------------------ *)
(** ** Instance attributes, [SlicePlayer] and [Sampler] *)
(* ------------------------------------------------------------------ *)

Module PyAttrs.

(** The attribute values these functions handle: numbers, [None], and any
    other object (a path string, a tuple, a pyo object). *)
Inductive pyval := PNum (q : Q) | PNone | PObj.

(** Instance attributes or keyword arguments, by name. *)
Notation attrs := (gmap string pyval).

(** [for attribute, value in defaults: if attribute is missing: set it],
    in the order of [defaults]. *)
Definition fill_missing (defaults : list (string * Q)) (a : attrs) : attrs :=
  fold_left (fun a kv => match a !! fst kv with
                         | Some _ => a
                         | None => <[fst kv := PNum (snd kv)]> a
                         end) defaults a.

(** The value [defaults] gives to [k]: its first entry for [k]. *)
Definition default_of (defaults : list (string * Q)) (k : string) : option pyval :=
  match find (fun kv => String.eqb (fst kv) k) defaults with
  | Some kv => Some (PNum (snd kv))
  | None => None
  end.

(** The first attribute of [ks] that [a] lacks: the [AttributeError] the
    reads [self.k] raise, in program order. *)
Definition first_missing (ks : list string) (a : attrs) : option string :=
  find (fun k => match a !! k with Some _ => false | None => true end) ks.

End PyAttrs.

Module SlicePlayer.
Import PyAttrs.

(** Lines 42-60 of [SlicePlayer.__init__]. *)
Definition attributes_to_set_zero : list string :=
  ["original_lv"; "harmonizer_lv"; "ringmodulation_lv"; "filter_lv"; "distortion_lv";
   "noise_lv"; "lorenz_lv"].

Definition attributes_to_set_n : list (string * Q) :=
  [("lv", 1); ("rm_freq", 200); ("filter_freq", 200); ("filter_q", 1); ("h_transpo", -2);
   ("lorenz_pitch", 2 # 5); ("lorenz_chaos", 1 # 2); ("chenlee_pitch", 3 # 4);
   ("chenlee_chaos", 1 # 2)]%Q
  ++ map (fun attr => (attr, 0%Q)) attributes_to_set_zero.

(** The instance attributes [self.k] that lines 67-112 read, in order,
    after the defaults (the class attributes [fadein] and [fadeout] and the
    attributes the constructor sets itself are always there and left out).
    The reads of lines 76-89 happen only when [self.path is not None]. *)
Definition reads (a : attrs) : list string :=
  ["dur"; "lv"; "path"] ++
  (match a !! "path" with
   | Some PNone => []
   | _ => ["path"; "dur"; "path"; "original_lv"; "dur"; "h_transpo"; "harmonizer_lv";
           "filter_freq"; "filter_q"; "filter_lv"; "distortion_lv"; "rm_freq";
           "ringmodulation_lv"]
   end) ++
  ["dur"; "ambient_noise_lv"; "dur"; "ambient_noise_lv"; "lorenz_pitch"; "lorenz_chaos";
   "lorenz_lv"; "noise_lv"; "chenlee_pitch"; "chenlee_chaos"; "chenlee_lv"].

(** [SlicePlayer.__init__] as far as attributes go: the keyword arguments
    become instance attributes ([EventInstrument.__init__]), the defaults
    are filled in, and the first attribute read that is missing raises
    [AttributeError] ([inl k]). *)
Definition init (args : attrs) : string + attrs :=
  let a := fill_missing attributes_to_set_n args in
  match first_missing (reads a) a with
  | Some k => inl k
  | None => inr a
  end.


End SlicePlayer.

Module Sampler.
Import PyAttrs.

(** [Sampler.init_args]. *)
Definition init_args : list (string * Q) :=
  [("volume", 1); ("skip_n_seconds", 0); ("fadein", 0); ("fadeout", 0)]%Q.

Record sampler := mkSampler {
  path : string;
  duration : Q;
  s_init_args : attrs }.

(** [Sampler.__init__]; [sndinfo_duration p] is [pyo.sndinfo(p)[1]]. *)
Definition init (sndinfo_duration : string -> Q) (p : string) (d : option Q) (loops : option Q)
    (kwargs : attrs) : sampler :=
  let d1 := match d, loops with
            | None, _ | _, Some _ => sndinfo_duration p
            | Some d0, None => d0
            end in
  let d2 := match loops with Some l => (d1 * l)%Q | None => d1 end in
  mkSampler p d2 (fill_missing init_args kwargs).

(** [Sampler.copy]: [type(self)(self.path, self.duration, **self.__init_args)]. *)
Definition copy (sndinfo_duration : string -> Q) (s : sampler) : sampler :=
  init sndinfo_duration (path s) (Some (duration s)) None (s_init_args s).

(** The [mul] of [Sampler.render]: [self.__init_args["volume"]], a
    [KeyError] ([None]) when absent. *)
Definition render_volume (s : sampler) : option pyval := s_init_args s !! "volume".

End Sampler.

(** [BrokenRadio.copy]: the constructor called again with the attributes of
    the built radio: the defaulted orders and skip counts, the same
    [source_decider] and [pause_per_event] iterators, now advanced, and
    [self.duration]. *)
Definition radio_copy_config (c : Radio.config) (r : Radio.radio) : Radio.config :=
  Radio.mkConfig (Radio.sources c) (Some (Radio.orders_of c)) (Some (Radio.skips_of c))
    (Some (Radio.r_source_decider r)) (Radio.r_duration r) (Radio.interlocking c)
    (Radio.r_pause_per_event r).

Module MoreSamples.
Import Radio.

(** Two directories of two and three slices, read in parallel. *)
Definition two_env : env :=
  mkEnv (fun p => if String.eqb p "x/" then Some ["1.wav"; "2.wav"]
                  else if String.eqb p "y/" then Some ["1.wav"; "2.wav"; "3.wav"] else None)
        (fun _ => 3%Q).

Definition two_config : config :=
  mkConfig ["x/"; "y/"] None None None 2%Q "parallel" (Cycle [0%Q] 0%Q).



Definition no_sources (il : string) (d : Q) : config :=
  mkConfig [] None None None d il (Cycle [0%Q] 0%Q).

Definition two_prepared : radio * PyRandom.state :=
  match prepare two_env two_config (PyRandom.seed 0) with
  | Ok p => p
  | Err _ => (Samples.plain_radio, PyRandom.seed 0)
  end.

Definition two_copy_prepared : radio * PyRandom.state :=
  match prepare two_env (radio_copy_config two_config (fst two_prepared)) (PyRandom.seed 0) with
  | Ok p => p
  | Err _ => (Samples.plain_radio, PyRandom.seed 0)
  end.

End MoreSamples.

(** The invariant of the generator state: every word of [mt] fits in 32 bits. *)
Module RandomInv.

(** A 32-bit word. *)
Definition word (x : Z) : Prop := 0 <= x < 4294967296.

End RandomInv.

Module ExtraSamples.
Import Radio MoreSamples.


(** [two_config] with one order for two sources. *)
Definition one_order_config : config :=
  mkConfig ["x/"; "y/"] (Some ["original"]) None None 2%Q "parallel" (Cycle [0%Q] 0%Q).

Definition two_built : radio * PyRandom.state :=
  match init two_env two_config (PyRandom.seed 0) with
  | Ok p => p
  | Err _ => (Samples.plain_radio, PyRandom.seed 0)
  end.

Definition two_copy_built : radio * PyRandom.state :=
  match init two_env (radio_copy_config two_config (fst two_built)) (PyRandom.seed 5) with
  | Ok p => p
  | Err _ => (Samples.plain_radio, PyRandom.seed 0)
  end.

End ExtraSamples.

(* ================================================================== *)
(** * Proofs *)
(* ================================================================== *)

(** ** The duration budget *)

Module BudgetFacts.
Import Tools Aux.
Local Open Scope Q_scope.


Lemma closest_below_all_gt item data i best :
  Forall (fun x => item < x) data -> closest_below item data i best = best.
Proof.
  revert i. induction data as [|x r IH]; intros i H; simpl; [reflexivity |].
  inversion H as [|? ? Hx Hr]; subst.
  assert (Qle_bool x item = false) as ->.
  { apply not_true_is_false. rewrite Qle_bool_iff. lra. }
  apply IH, Hr.
Qed.

Lemma closest_below_sorted item data i best :
  StronglySorted Qle data ->
  (forall b bx, best = Some (b, bx) -> bx <= item /\ Forall (Qle bx) data) ->
  closest_below item data i best =
  match count_le item data with
  | O => best
  | S c => Some ((i + c)%nat, nth c data 0)
  end.
Proof.
  revert i best. induction data as [|x r IH]; intros i best Hs Hb; simpl; [reflexivity |].
  apply StronglySorted_inv in Hs as [Hs Hf].
  destruct (Qle_bool x item) eqn:E.
  - assert (Hbest : match best with
                    | None => Some (i, x)
                    | Some (_, bx) => if Qle_bool bx x then Some (i, x) else best
                    end = Some (i, x)).
    { destruct best as [[b bx]|]; [|reflexivity].
      destruct (Hb b bx eq_refl) as [_ Hall]. inversion Hall as [|? ? Hbx _]; subst.
      assert (Qle_bool bx x = true) as -> by (apply Qle_bool_iff; exact Hbx).
      reflexivity. }
    rewrite Hbest, IH; [| exact Hs |].
    + destruct (count_le item r) as [|c]; simpl.
      * rewrite Nat.add_0_r. reflexivity.
      * f_equal. f_equal. lia.
    + intros b bx Heq. inversion Heq; subst. split; [apply Qle_bool_iff; exact E | exact Hf].
  - apply closest_below_all_gt.
    assert (Hx : item < x).
    { apply Qnot_le_lt. intro H. apply Qle_bool_iff in H. congruence. }
    rewrite Forall_forall in Hf |- *. intros y Hy. specialize (Hf y Hy). lra.
Qed.

Lemma running_sums_length a l : length (running_sums a l) = length l.
Proof. revert a. induction l; intros; simpl; auto. Qed.

Lemma running_sums_nth a l j :
  (j < length l)%nat -> nth j (running_sums a l) 0 = fold_left Qplus (firstn (S j) l) a.
Proof.
  revert a j. induction l as [|x r IH]; intros a j Hj; simpl in *; [lia |].
  destruct j as [|j]; simpl; [reflexivity |].
  rewrite IH by lia. reflexivity.
Qed.

(** The entries of [accumulate_from_zero] are the sums of the prefixes. *)
Lemma accumulate_nth l j :
  (j <= length l)%nat -> nth j (accumulate_from_zero l) 0 = qsum (firstn j l).
Proof.
  intros Hj. unfold accumulate_from_zero, qsum. destruct j as [|j]; [reflexivity |].
  simpl. apply running_sums_nth. lia.
Qed.

Lemma accumulate_length l : length (accumulate_from_zero l) = S (length l).
Proof. simpl. rewrite running_sums_length. reflexivity. Qed.

Lemma running_sums_above a l :
  Forall (Qle 0) l -> Forall (Qle a) (running_sums a l).
Proof.
  revert a. induction l as [|x r IH]; intros a H; simpl; [constructor |].
  inversion H as [|? ? Hx Hr]; subst. constructor; [lra |].
  specialize (IH (a + x) Hr). rewrite Forall_forall in IH |- *.
  intros y Hy. specialize (IH y Hy). lra.
Qed.

Lemma running_sums_sorted a l :
  Forall (Qle 0) l -> StronglySorted Qle (running_sums a l).
Proof.
  revert a. induction l as [|x r IH]; intros a H; simpl; [constructor |].
  inversion H as [|? ? Hx Hr]; subst. constructor; [apply IH, Hr |].
  apply running_sums_above, Hr.
Qed.

Lemma accumulate_sorted l :
  Forall (Qle 0) l -> StronglySorted Qle (accumulate_from_zero l).
Proof.
  intros H. constructor; [apply running_sums_sorted, H | apply running_sums_above, H].
Qed.

Lemma count_le_length item data : (count_le item data <= length data)%nat.
Proof.
  induction data as [|x r IH]; simpl; [lia |]. destruct (Qle_bool x item); simpl; lia.
Qed.

Lemma count_le_below item data j :
  (j < count_le item data)%nat -> nth j data 0 <= item.
Proof.
  revert j. induction data as [|x r IH]; intros j Hj; simpl in *; [lia |].
  destruct (Qle_bool x item) eqn:E; [| lia].
  destruct j as [|j]; [apply Qle_bool_iff, E | apply IH; lia].
Qed.

Lemma count_le_stop item data :
  (count_le item data < length data)%nat -> item < nth (count_le item data) data 0.
Proof.
  induction data as [|x r IH]; intros Hc; simpl in *; [lia |].
  destruct (Qle_bool x item) eqn:E.
  - apply IH. lia.
  - apply Qnot_le_lt. intro H. apply Qle_bool_iff in H. congruence.
Qed.

(** On the running sums of non-negative durations, with [0 <= item], the
    lookup answers the last index whose running sum is [<= item]. *)
Lemma budget_count d dpe :
  0 <= d -> Forall (Qle 0) dpe ->
  S (Render.budget d dpe) = count_le d (accumulate_from_zero dpe).
Proof.
  intros Hd Hnn. unfold Render.budget, find_closest_index.
  rewrite closest_below_sorted;
    [| apply accumulate_sorted, Hnn | intros b bx Hb; discriminate Hb].
  simpl. assert (Qle_bool 0 d = true) as -> by (apply Qle_bool_iff; exact Hd).
  simpl. reflexivity.
Qed.

End BudgetFacts.

(** C1 (amended): when the requested duration and every event duration are
    non-negative, the budgeted prefix of [render] is the longest prefix of
    the schedule whose running sum does not exceed the requested duration:
    no kept event pushes the running sum above it, and the first dropped
    event does. *)
Theorem render_budget_longest_prefix (r : Radio.radio)
    (objs : Render.effect -> Render.effect_obj) (s : PyRandom.state) :
  (0 <= Radio.r_duration r)%Q ->
  Forall (Qle 0) (Radio.duration_per_event r) ->
  let out := fst (fst (Render.render r objs s)) in
  let d := Radio.r_duration r in
  let dpe := Radio.duration_per_event r in
  let n := Render.n_events out in
  (n <= length dpe)%nat /\
  Render.ro_duration_per_event out = firstn n dpe /\
  (qsum (firstn n dpe) <= d)%Q /\
  (forall k, (k < n)%nat -> (qsum (firstn (S k) dpe) <= d)%Q) /\
  ((n < length dpe)%nat -> (d < qsum (firstn (S n) dpe))%Q).
Proof.
  intros Hd Hnn out d dpe n.
  assert (Hn : n = Render.budget d dpe).
  { subst n out. unfold Render.render.
    destruct (Render.lv_per_effect_loop _ _ _). destruct (Render.uniform_draws _ _ _ _).
    reflexivity. }
  assert (Hdur : Render.ro_duration_per_event out = firstn n dpe).
  { rewrite Hn. subst out. unfold Render.render.
    destruct (Render.lv_per_effect_loop _ _ _). destruct (Render.uniform_draws _ _ _ _).
    reflexivity. }
  clearbody out n. subst n.
  pose proof (BudgetFacts.budget_count d dpe Hd Hnn) as Hc.
  pose proof (BudgetFacts.count_le_length d (Tools.accumulate_from_zero dpe)) as Hl.
  rewrite BudgetFacts.accumulate_length in Hl.
  set (n := Render.budget d dpe) in *.
  split; [lia |]. split; [exact Hdur |]. split; [| split].
  - rewrite <- BudgetFacts.accumulate_nth by lia.
    apply BudgetFacts.count_le_below. lia.
  - intros k Hk. rewrite <- BudgetFacts.accumulate_nth by lia.
    apply BudgetFacts.count_le_below. lia.
  - intros Hlt. rewrite <- BudgetFacts.accumulate_nth by lia. rewrite Hc.
    apply BudgetFacts.count_le_stop. rewrite BudgetFacts.accumulate_length. lia.
Qed.

Lemma render_budget_longest_prefix_witness :
  (0 <= Radio.r_duration Samples.plain_radio)%Q /\
  Forall (Qle 0) (Radio.duration_per_event Samples.plain_radio) /\
  let out := fst (fst (Render.render Samples.plain_radio (Samples.const_objs true)
                         (PyRandom.seed 0))) in
  let d := Radio.r_duration Samples.plain_radio in
  let dpe := Radio.duration_per_event Samples.plain_radio in
  let n := Render.n_events out in
  (n <= length dpe)%nat /\
  Render.ro_duration_per_event out = firstn n dpe /\
  (qsum (firstn n dpe) <= d)%Q /\
  (forall k, (k < n)%nat -> (qsum (firstn (S k) dpe) <= d)%Q) /\
  ((n < length dpe)%nat -> (d < qsum (firstn (S n) dpe))%Q).
Proof.
  assert (H1 : (0 <= Radio.r_duration Samples.plain_radio)%Q) by (vm_compute; discriminate).
  assert (H2 : Forall (Qle 0) (Radio.duration_per_event Samples.plain_radio)).
  { repeat constructor; vm_compute; discriminate. }
  split; [exact H1 | split; [exact H2 |]].
  exact (render_budget_longest_prefix Samples.plain_radio (Samples.const_objs true)
           (PyRandom.seed 0) H1 H2).
Defined.

(** C1 (counterexample): a slice shorter than the one-second overlap gives a
    negative event duration.  With slices of 3.5 s, 0.2 s and 11 s and a
    requested duration of 1.8 s, construction succeeds, the budget keeps two
    events, and the first of them alone already pushes the running sum
    (2.5 s) above the requested duration.  The nearest-value reading of the
    lookup keeps the same two events. *)
Lemma render_budget_negative_duration_counterexample :
  match Radio.init Samples.short_env Samples.short_config (PyRandom.seed 0) with
  | Ok (r, _) =>
      Radio.duration_per_event r = [5 # 2; -4 # 5; 10]%Q /\
      Render.n_events (fst (fst (Render.render r (Samples.const_objs true) (PyRandom.seed 0))))
        = 2%nat /\
      (Radio.r_duration r < qsum (firstn 1 (Radio.duration_per_event r)))%Q /\
      Tools.find_closest_index_nearest (Radio.r_duration r)
        (Tools.accumulate_from_zero (Radio.duration_per_event r)) = 2%nat
  | Err _ => False
  end.
Proof. vm_compute. split; [reflexivity | split; [reflexivity | split; [reflexivity | reflexivity]]]. Qed.

(** ** The schedule builder *)

Module ScheduleFacts.
Import Aux.


Section Perm.
Context {A : Type} (le : A -> A -> bool).

Lemma insert_sorted_perm x l : Permutation (insert_sorted le x l) (x :: l).
Proof.
  induction l as [|y r IH]; simpl; [reflexivity |].
  destruct (le x y); [reflexivity |].
  rewrite IH. apply perm_swap.
Qed.

Lemma stable_sort_perm l : Permutation (stable_sort le l) l.
Proof.
  induction l as [|x r IH]; simpl; [reflexivity |].
  rewrite insert_sorted_perm. apply perm_skip, IH.
Qed.

End Perm.

Lemma map_snd_combine_seq {A} k (l : list A) : map snd (combine (seq k (length l)) l) = l.
Proof. revert k. induction l as [|x r IH]; intros k; simpl; [reflexivity | f_equal; apply IH]. Qed.

Lemma map_snd_tag_group {A} g (xs : list A) : map snd (Tools.tag_group g xs) = xs.
Proof.
  unfold Tools.tag_group, Tools.enum_map. rewrite map_map.
  transitivity (map snd (combine (seq 0 (length xs)) xs));
    [apply map_ext; intros [? ?]; reflexivity | apply map_snd_combine_seq].
Qed.

(** The merge only reorders: it is a permutation of the concatenation. *)
Lemma euclidic_interlocking_perm {A} (groups : list (list A)) :
  Permutation (Tools.euclidic_interlocking groups) (concat groups).
Proof.
  unfold Tools.euclidic_interlocking.
  rewrite (stable_sort_perm _ _).
  rewrite concat_map. unfold Tools.enum_map. rewrite map_map.
  replace (map (fun x => map snd (Tools.tag_group (fst x) (snd x)))
             (combine (seq 0 (length groups)) groups))
    with (map snd (combine (seq 0 (length groups)) groups)).
  - rewrite map_snd_combine_seq. reflexivity.
  - apply map_ext. intros [g xs]. simpl. symmetry. apply map_snd_tag_group.
Qed.

Ltac cases :=
  repeat match goal with
  | |- context [Z.eqb ?x ?y] => destruct (Z.eqb_spec x y)
  | |- context [Nat.leb ?x ?y] => destruct (Nat.leb_spec x y)
  | |- context [Nat.ltb ?x ?y] => destruct (Nat.ltb_spec x y)
  | |- context [key_dec ?x ?y] => destruct (key_dec x y) as [Heq|Hne];
                                    [injection Heq; intros; subst |]
  end; simpl; try lia.

Lemma count_group (a : Z) b n (a' : Z) i' :
  count_occ key_dec (map (fun i => (a, i)) (seq b n)) (a', i') =
  if Z.eqb a a' && Nat.leb b i' && Nat.ltb i' (b + n) then 1%nat else 0%nat.
Proof.
  revert b. induction n as [|n IH]; intros b; simpl; [cases |].
  rewrite IH. cases.
  match goal with H : (_, _) <> (_, _) |- _ => exfalso; apply H; f_equal; lia end.
Qed.

Lemma count_groups (l : list (list string)) k s i :
  count_occ key_dec
    (concat (map (fun p => map (fun j => (Z.of_nat (fst p), j)) (seq 0 (length (snd p))))
                 (combine (seq k (length l)) l)))
    (Z.of_nat s, i) =
  if Nat.leb k s && Nat.ltb s (k + length l) && Nat.ltb i (length (nth (s - k) l []))
  then 1%nat else 0%nat.
Proof.
  revert k. induction l as [|x r IH]; intros k; simpl; [cases |].
  rewrite count_occ_app, count_group, IH.
  destruct (lt_eq_lt_dec s k) as [[Hlt|Heq]|Hgt].
  - cases.
  - subst s. rewrite Nat.sub_diag. cases.
  - replace (s - k)%nat with (S (s - S k)) by lia. cbn [nth]. cases.
Qed.

Lemma draws_length {A} n (it : Stream A) : length (fst (draws n it)) = n.
Proof.
  revert it. induction n as [|n IH]; intros it; simpl; [reflexivity |].
  specialize (IH (Streams.tl it)). destruct (draws n (Streams.tl it)). simpl in *. lia.
Qed.

Lemma draws_nth {A} n (it : Stream A) i :
  (i < n)%nat -> nth_error (fst (draws n it)) i = Some (Str_nth i it).
Proof.
  revert it i. induction n as [|n IH]; intros it i Hi; simpl; [lia |].
  pose proof (IH (Streams.tl it)) as IH'. destruct (draws n (Streams.tl it)) as [xs it'].
  destruct i as [|i]; simpl; [reflexivity |].
  rewrite IH' by lia. reflexivity.
Qed.

Lemma combine_seq_nth {A} (l : list A) k n i x :
  (i < n)%nat -> nth_error l i = Some x -> nth_error (combine l (seq k n)) i = Some (x, (k + i)%nat).
Proof.
  revert k n i. induction l as [|y r IH]; intros k n i Hi Hx; [destruct i; discriminate |].
  destruct n as [|n]; [lia |]. destruct i as [|i]; simpl in *.
  - inversion Hx; subst. rewrite Nat.add_0_r. reflexivity.
  - rewrite (IH (S k) n i) by (lia || exact Hx). f_equal. f_equal. lia.
Qed.

Lemma length_combine_seq {A} (l : list A) k : length (combine l (seq k (length l))) = length l.
Proof. rewrite length_combine, length_seq. lia. Qed.

Lemma fold_min_le (l : list nat) (a : nat) :
  Nat.le (fold_left Nat.min l a) a /\ Forall (fun x => Nat.le (fold_left Nat.min l a) x) l.
Proof.
  revert a. induction l as [|x r IH]; intros a; simpl; [split; [lia | constructor] |].
  destruct (IH (Nat.min a x)) as [H1 H2]. split; [lia |]. constructor; [lia | exact H2].
Qed.

Lemma fold_min_attained (l : list nat) (a : nat) : fold_left Nat.min l a = a \/ In (fold_left Nat.min l a) l.
Proof.
  revert a. induction l as [|x r IH]; intros a; simpl; [left; reflexivity |].
  destruct (IH (Nat.min a x)) as [H|H]; [| right; right; exact H].
  rewrite H. destruct (Nat.min_spec a x) as [[_ ->]|[_ ->]]; [left | right; left]; reflexivity.
Qed.

End ScheduleFacts.

(** C2: under [sequential], [maxima_n_events] is the sum of the per-source
    sample counts, the schedule has that length, and every key
    [(source index, sample index)] with the sample index below that
    source's length occurs exactly once. *)
Theorem sequential_schedule_exact_cover (path_per_source : list (list string))
    (decider : Stream Z) :
  let total := list_sum (map (@length _) path_per_source) in
  let keys := fst (Radio.sample_keys "sequential" path_per_source total decider) in
  Radio.maxima_n_events_of "sequential" path_per_source = Ok total /\
  length keys = total /\
  (forall s i, (s < length path_per_source)%nat -> (i < length (nth s path_per_source []))%nat ->
     count_occ Aux.key_dec keys (Z.of_nat s, i) = 1%nat).
Proof.
  intros total keys.
  assert (Hp : Permutation keys
                 (concat (map (fun p => map (fun j => (Z.of_nat (fst p), j))
                                              (seq 0 (length (snd p))))
                              (combine (seq 0 (length path_per_source)) path_per_source)))).
  { subst keys. unfold Radio.sample_keys. simpl.
    apply ScheduleFacts.euclidic_interlocking_perm. }
  split; [reflexivity | split].
  - rewrite (Permutation_length Hp), length_concat, map_map.
    subst total. f_equal.
    transitivity (map (fun x : nat * list string => length (snd x))
                    (combine (seq 0 (length path_per_source)) path_per_source)).
    + apply map_ext. intros [k l]. simpl. rewrite length_map, length_seq. reflexivity.
    + rewrite <- map_map, ScheduleFacts.map_snd_combine_seq. reflexivity.
  - intros s i Hs Hi.
    rewrite (proj1 (Permutation_count_occ Aux.key_dec _ _) Hp).
    rewrite ScheduleFacts.count_groups, Nat.sub_0_r.
    destruct (Nat.leb_spec 0 s), (Nat.ltb_spec s (0 + length path_per_source)),
             (Nat.ltb_spec i (length (nth s path_per_source []))); simpl; lia.
Qed.

(** C3: under [parallel], for a non-empty [path_per_source],
    [maxima_n_events] is the minimum per-source sample count, the schedule
    has that length, and its [i]-th key is ([i]-th value of the
    [source_decider] stream, [i]). *)
Theorem parallel_schedule_keys (path_per_source : list (list string)) (decider : Stream Z) :
  path_per_source <> [] ->
  exists m,
    Radio.maxima_n_events_of "parallel" path_per_source = Ok m /\
    (forall p, In p path_per_source -> (m <= length p)%nat) /\
    (exists p, In p path_per_source /\ length p = m) /\
    length (fst (Radio.sample_keys "parallel" path_per_source m decider)) = m /\
    (forall i, (i < m)%nat ->
       nth_error (fst (Radio.sample_keys "parallel" path_per_source m decider)) i
       = Some (Str_nth i decider, i)).
Proof.
  intros Hne. destruct path_per_source as [|p0 rest]; [congruence |].
  set (m := fold_left Nat.min (map (@length _) rest) (length p0)).
  exists m. unfold Radio.maxima_n_events_of, Radio.sample_keys. simpl.
  pose proof (ScheduleFacts.fold_min_le (map (@length _) rest) (length p0)) as [Hle Hall].
  split; [reflexivity |]. split; [| split; [| split]].
  - intros p [Hp|Hp]; [subst p; exact Hle |].
    rewrite Forall_forall in Hall. apply Hall, list_elem_of_In, in_map, Hp.
  - destruct (ScheduleFacts.fold_min_attained (map (@length _) rest) (length p0)) as [H|H].
    + exists p0. split; [left; reflexivity | symmetry; exact H].
    + apply in_map_iff in H as [p [Hp Hin]]. exists p. split; [right; exact Hin | exact Hp].
  - pose proof (ScheduleFacts.draws_length m decider) as Hl.
    destruct (draws m decider) as [srcs d']. simpl in *.
    rewrite length_combine, length_seq. lia.
  - intros i Hi. pose proof (ScheduleFacts.draws_nth m decider i Hi) as Hn.
    destruct (draws m decider) as [srcs d']. simpl in *.
    apply ScheduleFacts.combine_seq_nth; assumption.
Qed.

Lemma parallel_schedule_keys_witness :
  [["a"; "b"; "c"]; ["x"; "y"]] <> [] /\
  exists m,
    Radio.maxima_n_events_of "parallel" [["a"; "b"; "c"]; ["x"; "y"]] = Ok m /\
    (forall p, In p [["a"; "b"; "c"]; ["x"; "y"]] -> (m <= length p)%nat) /\
    (exists p, In p [["a"; "b"; "c"]; ["x"; "y"]] /\ length p = m) /\
    length (fst (Radio.sample_keys "parallel" [["a"; "b"; "c"]; ["x"; "y"]] m
                   (Cycle [0; 1] 0))) = m /\
    (forall i, (i < m)%nat ->
       nth_error (fst (Radio.sample_keys "parallel" [["a"; "b"; "c"]; ["x"; "y"]] m
                         (Cycle [0; 1] 0))) i
       = Some (Str_nth i (Cycle [0; 1] 0), i)).
Proof.
  assert (H : [["a"; "b"; "c"]; ["x"; "y"]] <> ([] : list (list string))) by discriminate.
  split; [exact H | exact (parallel_schedule_keys _ (Cycle [0; 1] 0) H)].
Defined.

(** ** The catalog of a source *)

Module CatalogFacts.

Section Perm.
Context {A : Type}.

Lemma insert_perm (l : list A) k x y :
  l !! k = Some x -> Permutation (x :: <[k := y]> l) (y :: l).
Proof.
  intros Hx. pose proof (lookup_lt_Some _ _ _ Hx) as Hk.
  rewrite insert_take_drop by exact Hk.
  assert (Hl : l = take k l ++ x :: drop (S k) l) by (symmetry; apply take_drop_middle, Hx).
  set (t := take k l) in *. set (r := drop (S k) l) in *.
  rewrite Hl.
  transitivity (x :: y :: t ++ r); [apply perm_skip; symmetry; apply Permutation_middle |].
  transitivity (y :: x :: t ++ r); [apply perm_swap |].
  apply perm_skip, Permutation_middle.
Qed.

Lemma lookup_nth (l : list A) i d : (i < length l)%nat -> l !! i = Some (nth i l d).
Proof.
  intros Hi. destruct (nth_lookup_or_length l i d) as [H|H]; [exact H | lia].
Qed.

Lemma swap_perm (l : list A) i j d :
  (i < length l)%nat -> (j < length l)%nat -> Permutation (PyRandom.swap l i j d) l.
Proof.
  intros Hi Hj. unfold PyRandom.swap.
  set (xj := nth j l d). set (xi := nth i l d).
  assert (H1 : <[i := xj]> l !! j = Some xj).
  { destruct (decide (i = j)) as [->|Hne].
    - apply list_lookup_insert_eq, Hj.
    - rewrite list_lookup_insert_ne by exact Hne. apply lookup_nth, Hj. }
  assert (H2 : l !! i = Some xi) by (apply lookup_nth, Hi).
  apply (Permutation_cons_inv (a := xj)).
  transitivity (xi :: <[i := xj]> l); [apply insert_perm, H1 |].
  apply insert_perm, H2.
Qed.

Lemma filter_perm (f : A -> bool) (l l' : list A) :
  Permutation l l' -> Permutation (filter f l) (filter f l').
Proof. intros H. rewrite H. reflexivity. Qed.

End Perm.

Lemma randbelow_loop_lt n k s f : 0 < n -> fst (PyRandom.randbelow_loop n k s f) < n.
Proof.
  revert s. induction f as [|f IH]; intros s Hn; simpl; [exact Hn |].
  destruct (PyRandom.getrandbits k s) as [r s'].
  destruct (Z.ltb_spec r n); [exact H | apply IH, Hn].
Qed.

Lemma shuffle_loop_perm {A} i (x : list A) s :
  (i < length x)%nat -> Permutation (fst (PyRandom.shuffle_loop i x s)) x.
Proof.
  revert x s. induction i as [|i IH]; intros x s Hi; simpl; [reflexivity |].
  destruct x as [|d r]; [reflexivity |].
  pose proof (randbelow_loop_lt (Z.of_nat (S (S i))) (Z.to_nat (Z.log2 (Z.of_nat (S (S i))) + 1))
                s 256) as Hj.
  unfold PyRandom.randbelow.
  destruct (PyRandom.randbelow_loop _ _ s 256) as [j s']. simpl in Hj.
  assert (Hsw : Permutation (PyRandom.swap (d :: r) (S i) (Z.to_nat j) d) (d :: r)).
  { apply swap_perm; [exact Hi | lia]. }
  etransitivity; [apply IH | exact Hsw].
  rewrite (Permutation_length Hsw). lia.
Qed.

Lemma shuffle_perm {A} (x : list A) s : Permutation (fst (PyRandom.shuffle x s)) x.
Proof.
  unfold PyRandom.shuffle. destruct x as [|d r]; [reflexivity |].
  apply shuffle_loop_perm. simpl. lia.
Qed.

Lemma rev_keep (path : string) (l : list string) :
  rev (map (String.append path) (filter Radio.ends_with_wav l))
  = map (String.append path) (filter Radio.ends_with_wav (rev l)).
Proof.
  induction l as [|x l IH]; [reflexivity |].
  cbn [rev]. rewrite filter_app, map_app, <- IH, !filter_cons.
  destruct (decide _); simpl; rewrite ?map_app, ?app_nil_r; reflexivity.
Qed.

End CatalogFacts.

(** C5 (amended): the catalog of a readable source is the natural-sorted
    listing with its first [skip] entries dropped whatever their extension,
    then reversed ([reverse]) or shuffled with the global random stream
    ([shuffle], a permutation), and only then filtered to names ending in
    [wav] and prefixed with the source path; an unsupported order raises
    [ValueError]. *)
Theorem detect_source_pipeline (listdir : string -> option (list string))
    (path order : string) (skip : Z) (s : PyRandom.state) (names : list string) :
  listdir path = Some names ->
  let base := py_slice_from skip (Natsort.natsorted names) in
  let keep := fun l => map (String.append path) (filter Radio.ends_with_wav l) in
  (order = "original" -> Radio.detect_source listdir path order skip s = Ok (keep base, s)) /\
  (order = "reverse" ->
     Radio.detect_source listdir path order skip s = Ok (rev (keep base), s)) /\
  (order = "shuffle" ->
     exists l' s', Radio.detect_source listdir path order skip s = Ok (l', s') /\
       l' = keep (fst (PyRandom.shuffle base s)) /\ Permutation l' (keep base)) /\
  (Radio.supported_order order = false ->
     Radio.detect_source listdir path order skip s = Err (ValueError (UnknownOrder order))).
Proof.
  intros Hl base keep. unfold Radio.detect_source. rewrite Hl. fold base.
  split; [| split; [| split]].
  - intros ->. reflexivity.
  - intros ->. simpl. f_equal. f_equal. symmetry. apply CatalogFacts.rev_keep.
  - intros ->. simpl. fold base.
    destruct (PyRandom.shuffle base s) as [l s'] eqn:E.
    exists (keep l), s'. split; [reflexivity | split].
    + reflexivity.
    + apply Permutation_map, CatalogFacts.filter_perm.
      pose proof (CatalogFacts.shuffle_perm base s) as P. rewrite E in P. exact P.
  - intros Hu. rewrite Hu. reflexivity.
Qed.

Lemma detect_source_pipeline_witness :
  Samples.mixed_listdir "s/" = Some ["a.txt"; "b.wav"; "c.wav"] /\
  let base := py_slice_from 1 (Natsort.natsorted ["a.txt"; "b.wav"; "c.wav"]) in
  let keep := fun l => map (String.append "s/") (filter Radio.ends_with_wav l) in
  ("reverse" = "original" ->
     Radio.detect_source Samples.mixed_listdir "s/" "reverse" 1 (PyRandom.seed 10)
     = Ok (keep base, PyRandom.seed 10)) /\
  ("reverse" = "reverse" ->
     Radio.detect_source Samples.mixed_listdir "s/" "reverse" 1 (PyRandom.seed 10)
     = Ok (rev (keep base), PyRandom.seed 10)) /\
  ("reverse" = "shuffle" ->
     exists l' s', Radio.detect_source Samples.mixed_listdir "s/" "reverse" 1 (PyRandom.seed 10)
                   = Ok (l', s') /\
       l' = keep (fst (PyRandom.shuffle base (PyRandom.seed 10))) /\ Permutation l' (keep base)) /\
  (Radio.supported_order "reverse" = false ->
     Radio.detect_source Samples.mixed_listdir "s/" "reverse" 1 (PyRandom.seed 10)
     = Err (ValueError (UnknownOrder "reverse"))).
Proof.
  assert (H : Samples.mixed_listdir "s/" = Some ["a.txt"; "b.wav"; "c.wav"]) by reflexivity.
  split; [exact H |].
  exact (detect_source_pipeline Samples.mixed_listdir "s/" "reverse" 1 (PyRandom.seed 10) _ H).
Defined.

(** C5 (counterexample): with the listing [a.txt; b.wav; c.wav] and
    [skip = 1], the code drops [a.txt] and keeps both samples, while
    filtering before skipping keeps only [c.wav]: the skip count is not
    restricted to sample files. *)
Lemma detect_source_skip_counts_other_files :
  match Radio.detect_source Samples.mixed_listdir "s/" "original" 1 (PyRandom.seed 10) with
  | Ok (l, _) => l = ["s/b.wav"; "s/c.wav"]
  | Err _ => False
  end /\
  match Aux.detect_source_claimed Samples.mixed_listdir "s/" "original" 1 (PyRandom.seed 10) with
  | Ok (l, _) => l = ["s/c.wav"]
  | Err _ => False
  end.
Proof. vm_compute. split; reflexivity. Qed.

(** ** Construction: the duration check, policy errors, determinism *)

Module InitFacts.
Import Radio.

Lemma prepare_shape e c s r s' :
  prepare e c s = Ok (r, s') ->
  maxima_duration r = qsum (duration_per_event r) /\ r_duration r = duration c.
Proof.
  unfold prepare, bind. cbv zeta. intros H.
  repeat match type of H with
  | context [match ?x with _ => _ end] => destruct x eqn:?; cbv beta iota zeta in H
  end; try discriminate.
  injection H as <- _. split; reflexivity.
Qed.

Lemma detect_source_ok listdir p o k s names :
  supported_order o = true -> listdir p = Some names ->
  exists r, detect_source listdir p o k s = Ok r.
Proof.
  intros Ho Hn. unfold detect_source. rewrite Ho, Hn. cbn [negb].
  destruct (String.eqb o "reverse"); [eexists; reflexivity |].
  destruct (String.eqb o "shuffle"); [destruct (PyRandom.shuffle _ s) |]; eexists; reflexivity.
Qed.

Lemma detect_files_loop_unknown listdir pre p o k post s :
  Forall (fun x : string * string * Z => supported_order (snd (fst x)) = true /\
            exists names, listdir (fst (fst x)) = Some names) pre ->
  supported_order o = false ->
  detect_files_loop listdir (pre ++ (p, o, k) :: post) s = Err (ValueError (UnknownOrder o)).
Proof.
  revert s. induction pre as [|[[p0 o0] k0] pre IH]; intros s Hf Ho.
  - cbn [app detect_files_loop]. unfold detect_source. rewrite Ho. reflexivity.
  - inversion Hf as [|? ? [Hs [names Hn]] Hr]; subst.
    cbn [app detect_files_loop].
    destruct (detect_source_ok listdir p0 o0 k0 s names Hs Hn) as [r1 E]. rewrite E.
    cbn [bind]. rewrite IH by assumption. reflexivity.
Qed.

End InitFacts.

(** C4 (amended): once the schedule is built ([prepare] succeeds), its
    [maxima_duration] is the sum of the event durations; construction then
    raises [ValueError] carrying the requested duration and that sum (not a
    shortfall) exactly when the sum is at most the requested duration, and
    succeeds with the built radio when the sum strictly exceeds it. *)
Theorem init_duration_check (e : Radio.env) (c : Radio.config) (s : PyRandom.state)
    (r : Radio.radio) (s' : PyRandom.state) :
  Radio.prepare e c s = Ok (r, s') ->
  Radio.maxima_duration r = qsum (Radio.duration_per_event r) /\
  ((Radio.maxima_duration r <= Radio.duration c)%Q ->
     Radio.init e c s =
     Err (ValueError (NotEnoughSamples (Radio.duration c) (Radio.maxima_duration r)))) /\
  ((Radio.duration c < Radio.maxima_duration r)%Q -> Radio.init e c s = Ok (r, s')).
Proof.
  intros H. destruct (InitFacts.prepare_shape e c s r s' H) as [Hm Hd].
  unfold Radio.init. rewrite H. cbn [bind fst]. rewrite Hd, Hm.
  split; [reflexivity | split]; intros Hle; unfold Radio.Qltb.
  - assert (Qle_bool (qsum (Radio.duration_per_event r)) (Radio.duration c) = true) as ->.
    { apply Qle_bool_iff. exact Hle. }
    reflexivity.
  - assert (Qle_bool (qsum (Radio.duration_per_event r)) (Radio.duration c) = false) as ->.
    { apply not_true_is_false. rewrite Qle_bool_iff. apply Qlt_not_le, Hle. }
    reflexivity.
Qed.

Lemma init_duration_check_witness :
  Radio.prepare Samples.short_env Samples.tight_config (PyRandom.seed 0)
    = Ok (fst Samples.tight_prepared, snd Samples.tight_prepared) /\
  Radio.maxima_duration (fst Samples.tight_prepared)
    = qsum (Radio.duration_per_event (fst Samples.tight_prepared)) /\
  ((Radio.maxima_duration (fst Samples.tight_prepared) <= Radio.duration Samples.tight_config)%Q ->
     Radio.init Samples.short_env Samples.tight_config (PyRandom.seed 0) =
     Err (ValueError (NotEnoughSamples (Radio.duration Samples.tight_config)
                        (Radio.maxima_duration (fst Samples.tight_prepared))))) /\
  ((Radio.duration Samples.tight_config < Radio.maxima_duration (fst Samples.tight_prepared))%Q ->
     Radio.init Samples.short_env Samples.tight_config (PyRandom.seed 0)
     = Ok (fst Samples.tight_prepared, snd Samples.tight_prepared)).
Proof.
  assert (H : Radio.prepare Samples.short_env Samples.tight_config (PyRandom.seed 0)
              = Ok (fst Samples.tight_prepared, snd Samples.tight_prepared))
    by (vm_compute; reflexivity).
  split; [exact H |].
  exact (init_duration_check _ _ _ _ _ H).
Defined.

(** C4 (counterexample): when the total of the event durations equals the
    requested duration ([117/10]), construction fails with a [ValueError]
    whose payload is the requested duration and the total, not an
    [InsufficientMaterialError] with a shortfall. *)
Lemma init_exact_total_raises_value_error :
  match Radio.init Samples.short_env Samples.tight_config (PyRandom.seed 0) with
  | Err (ValueError (NotEnoughSamples d m) as ex) =>
      exn_name ex = "ValueError"%string /\ (d == 117 # 10)%Q /\ (m == 117 # 10)%Q
  | _ => False
  end.
Proof. vm_compute. split; [reflexivity | split; reflexivity]. Qed.

(** C6 (amended): construction rejects an unknown order by raising
    [ValueError] ([UnknownOrder]) at the first source, in the zip of
    sources, orders and skip counts, whose order is not [original],
    [reverse] or [shuffle], provided the sources before it are readable
    with valid orders; and once the catalogs are read, it rejects an
    interlocking other than [parallel] and [sequential] by raising
    [ValueError] ([UnknownInterlocking]). No schedule is returned. *)
Theorem init_rejects_unknown_policies (e : Radio.env) (c : Radio.config) (s : PyRandom.state) :
  (forall pre p o k post,
     zip3 (Radio.sources c) (Radio.orders_of c) (Radio.skips_of c) = pre ++ (p, o, k) :: post ->
     Forall (fun x : string * string * Z => Radio.supported_order (snd (fst x)) = true /\
               exists names, Radio.listdir e (fst (fst x)) = Some names) pre ->
     Radio.supported_order o = false ->
     Radio.init e c s = Err (ValueError (UnknownOrder o))) /\
  ((exists r, Radio.detect_files (Radio.listdir e) (Radio.sources c) (Radio.orders_of c)
                (Radio.skips_of c) s = Ok r) ->
     Radio.interlocking c <> "parallel"%string -> Radio.interlocking c <> "sequential"%string ->
     Radio.init e c s = Err (ValueError (UnknownInterlocking (Radio.interlocking c)))).
Proof.
  split.
  - intros pre p o k post Hz Hf Ho.
    unfold Radio.init, Radio.prepare, Radio.detect_files. cbv zeta.
    rewrite Hz, InitFacts.detect_files_loop_unknown by assumption. reflexivity.
  - intros [r Hr] Hp Hs.
    unfold Radio.init, Radio.prepare. cbv zeta. rewrite Hr. cbn [bind].
    unfold Radio.maxima_n_events_of.
    apply String.eqb_neq in Hp, Hs. rewrite Hp, Hs. reflexivity.
Qed.

Lemma init_rejects_unknown_policies_witness :
  (zip3 (Radio.sources Samples.backwards_config) (Radio.orders_of Samples.backwards_config)
        (Radio.skips_of Samples.backwards_config) = [] ++ ("s/"%string, "backwards"%string, 0) :: [] /\
   Forall (fun x : string * string * Z => Radio.supported_order (snd (fst x)) = true /\
             exists names, Radio.listdir Samples.short_env (fst (fst x)) = Some names) [] /\
   Radio.supported_order "backwards" = false /\
   Radio.init Samples.short_env Samples.backwards_config (PyRandom.seed 0)
   = Err (ValueError (UnknownOrder "backwards"))) /\
  ((exists r, Radio.detect_files (Radio.listdir Samples.short_env)
                (Radio.sources Samples.zigzag_config) (Radio.orders_of Samples.zigzag_config)
                (Radio.skips_of Samples.zigzag_config) (PyRandom.seed 0) = Ok r) /\
   Radio.interlocking Samples.zigzag_config <> "parallel"%string /\
   Radio.interlocking Samples.zigzag_config <> "sequential"%string /\
   Radio.init Samples.short_env Samples.zigzag_config (PyRandom.seed 0)
   = Err (ValueError (UnknownInterlocking (Radio.interlocking Samples.zigzag_config)))).
Proof.
  assert (H1 : zip3 (Radio.sources Samples.backwards_config)
                 (Radio.orders_of Samples.backwards_config)
                 (Radio.skips_of Samples.backwards_config)
               = [] ++ ("s/"%string, "backwards"%string, 0) :: []) by reflexivity.
  assert (H2 : Forall (fun x : string * string * Z => Radio.supported_order (snd (fst x)) = true /\
                 exists names, Radio.listdir Samples.short_env (fst (fst x)) = Some names) [])
    by constructor.
  assert (H3 : Radio.supported_order "backwards" = false) by reflexivity.
  assert (H4 : exists r, Radio.detect_files (Radio.listdir Samples.short_env)
                 (Radio.sources Samples.zigzag_config) (Radio.orders_of Samples.zigzag_config)
                 (Radio.skips_of Samples.zigzag_config) (PyRandom.seed 0) = Ok r).
  { destruct (Radio.detect_files _ _ _ _ _) as [r|ex] eqn:E;
      [exists r; reflexivity | vm_compute in E; discriminate E]. }
  assert (H5 : Radio.interlocking Samples.zigzag_config <> "parallel"%string) by discriminate.
  assert (H6 : Radio.interlocking Samples.zigzag_config <> "sequential"%string) by discriminate.
  split.
  - split; [exact H1 | split; [exact H2 | split; [exact H3 |]]].
    exact (proj1 (init_rejects_unknown_policies Samples.short_env Samples.backwards_config
                    (PyRandom.seed 0)) [] _ _ _ [] H1 H2 H3).
  - split; [exact H4 | split; [exact H5 | split; [exact H6 |]]].
    exact (proj2 (init_rejects_unknown_policies Samples.short_env Samples.zigzag_config
                    (PyRandom.seed 0)) H4 H5 H6).
Defined.

(** C6 (counterexample): the order ["backwards"] makes construction raise
    an exception of class [ValueError], not a dedicated configuration
    error class. *)
Lemma init_unknown_order_raises_value_error :
  match Radio.init Samples.short_env Samples.backwards_config (PyRandom.seed 0) with
  | Err ex => ex = ValueError (UnknownOrder "backwards") /\ exn_name ex = "ValueError"%string
  | Ok _ => False
  end.
Proof. vm_compute. split; reflexivity. Qed.

(** C9: [detect_files] reseeds the global random module with 10 before any
    shuffle, so the catalogs, and with them the whole construction (event
    keys, sample paths, durations and the random state left behind), do not
    depend on the random state the program had before: two constructions
    from the same configuration and file system give the same result. *)
Theorem init_ignores_prior_random_state (e : Radio.env) (c : Radio.config)
    (s1 s2 : PyRandom.state) :
  Radio.detect_files (Radio.listdir e) (Radio.sources c) (Radio.orders_of c) (Radio.skips_of c) s1
  = Radio.detect_files (Radio.listdir e) (Radio.sources c) (Radio.orders_of c) (Radio.skips_of c) s2 /\
  Radio.init e c s1 = Radio.init e c s2.
Proof. split; reflexivity. Qed.

(** ** Effect levels and ambient noise in [render] *)

Module RenderFacts.
Import Radio Render.

Lemma effect_levels_length n g lv lvl :
  length (fst (fst (effect_levels n g lv lvl))) = n.
Proof.
  revert g lvl. induction n as [|n IH]; intros g lvl; simpl; [reflexivity |].
  destruct (gate_call g lv) as [b g'].
  destruct (if b then (Streams.hd lvl, Streams.tl lvl) else (0%Q, lvl)) as [x lvl'].
  specialize (IH g' lvl').
  destruct (effect_levels n g' lv lvl') as [[xs g''] lvl'']. simpl in *. lia.
Qed.

Lemma effect_levels_nth n g lv lvl i :
  (i < n)%nat ->
  let bs := Aux.gate_answers n g lv in
  nth i (fst (fst (effect_levels n g lv lvl))) 0%Q =
  if nth i bs false then Str_nth (Aux.count_true (firstn i bs)) lvl else 0%Q.
Proof.
  revert g lvl i. induction n as [|n IH]; intros g lvl i Hi; [lia |].
  cbn zeta. cbn [effect_levels Aux.gate_answers].
  destruct (gate_call g lv) as [b g'].
  pose proof (IH g' (if b then Streams.tl lvl else lvl)) as IH'.
  destruct b; simpl in IH' |- *;
  destruct (effect_levels n g' lv _) as [[xs g''] lvl''];
  (destruct i as [|i]; [reflexivity |]); exact (IH' i ltac:(lia)).
Qed.

Lemma effect_eqb_neq a b : a <> b -> effect_eqb a b = false.
Proof. destruct a, b; intros H; try reflexivity; congruence. Qed.

Lemma lv_loop_spec n es objs :
  NoDup es ->
  map fst (fst (lv_per_effect_loop n es objs)) = es /\
  forall e, In e es ->
    In (e, fst (fst (effect_levels n (activity_object (objs e)) (activity_lv (objs e))
                                    (level (objs e)))))
       (fst (lv_per_effect_loop n es objs)).
Proof.
  revert objs. induction es as [|e r IH]; intros objs Hnd; [split; [reflexivity | intros ? []] |].
  apply NoDup_cons in Hnd as [Hnot Hnd].
  cbn [lv_per_effect_loop]. cbv zeta.
  destruct (effect_levels n _ _ _) as [[xs g'] lvl'] eqn:E.
  match goal with |- context [lv_per_effect_loop n r ?f] => set (objs' := f) end.
  destruct (IH objs' Hnd) as [Hmap Hin].
  destruct (lv_per_effect_loop n r objs') as [rest objs''] eqn:E2. cbn [fst map] in *.
  split; [rewrite Hmap; reflexivity |].
  intros e0 [<- | He0].
  - left. rewrite E. reflexivity.
  - right. specialize (Hin e0 He0).
    assert (objs' e0 = objs e0) as Ho.
    { unfold objs'. rewrite effect_eqb_neq; [reflexivity |]. intros ->. apply Hnot, list_elem_of_In, He0. }
    rewrite Ho in Hin. exact Hin.
Qed.

Lemma effects_nodup : NoDup effects.
Proof. apply NoDup_ListNoDup. unfold effects. repeat constructor; simpl; intuition discriminate. Qed.

Lemma uniform_draws_length n a b s : length (fst (uniform_draws n a b s)) = n.
Proof.
  revert s. induction n as [|n IH]; intros s; simpl; [reflexivity |].
  destruct (PyRandom.uniform a b s) as [u s1]. specialize (IH s1).
  destruct (uniform_draws n a b s1) as [us s2]. simpl in *. lia.
Qed.

Lemma combine_shift_nth (a : Q) us i :
  (i < length us)%nat ->
  nth i (combine (a :: us) us) (0%Q, 0%Q) = (nth i (a :: us) 0%Q, nth i us 0%Q).
Proof.
  revert a i. induction us as [|u us IH]; intros a i Hi; simpl in Hi; [lia |].
  destruct i as [|i]; [reflexivity |].
  cbn [combine nth]. apply IH. lia.
Qed.

Lemma render_unfold r objs s :
  let n := budget (r_duration r) (duration_per_event r) in
  let dpe := firstn n (duration_per_event r) in
  let out := fst (fst (render r objs s)) in
  ro_duration_per_event out = dpe /\
  lv_per_effect out = fst (lv_per_effect_loop (length dpe) effects objs) /\
  ambient_noise_lv_per_event out =
    combine (0%Q :: fst (uniform_draws (length dpe) (1 # 5) (2 # 5) (PyRandom.seed 1)))
            (fst (uniform_draws (length dpe) (1 # 5) (2 # 5) (PyRandom.seed 1))).
Proof.
  cbv zeta. unfold render. cbv zeta.
  destruct (lv_per_effect_loop _ effects objs) as [lvs objs'].
  destruct (uniform_draws _ (1 # 5) (2 # 5) (PyRandom.seed 1)) as [us s1].
  split; [| split]; reflexivity.
Qed.

End RenderFacts.

(** C7: [render] returns one level tuple per effect, for exactly the eight
    effects in order, each as long as the events kept. For the [i]-th event
    and an effect whose gate answers [bs] over the events, the level is the
    next value of the effect's level stream (the element of index "number of
    [true] answers before [i]") when the gate answers [true], and [0]
    otherwise; a [false] answer does not advance the stream. Each effect has
    its own gate and level stream here, as with the default [Cycle] objects. *)
Theorem render_effect_levels (r : Radio.radio) (objs : Render.effect -> Render.effect_obj)
    (s : PyRandom.state) (e : Render.effect) (i : nat) :
  In e Render.effects ->
  (i < length (Render.ro_duration_per_event (fst (fst (Render.render r objs s)))))%nat ->
  let out := fst (fst (Render.render r objs s)) in
  let n := length (Render.ro_duration_per_event out) in
  let o := objs e in
  let bs := Aux.gate_answers n (Render.activity_object o) (Render.activity_lv o) in
  map fst (Render.lv_per_effect out) = Render.effects /\
  exists xs, In (e, xs) (Render.lv_per_effect out) /\ length xs = n /\
    nth i xs 0%Q =
    if nth i bs false then Str_nth (Aux.count_true (firstn i bs)) (Render.level o) else 0%Q.
Proof.
  intros He Hi out n o bs.
  destruct (RenderFacts.render_unfold r objs s) as [Hd [Hl _]]. cbv zeta in Hd, Hl.
  fold out in Hd, Hl, Hi. fold n in Hi.
  assert (Hn : n = length (firstn (Render.budget (Radio.r_duration r) (Radio.duration_per_event r))
                                  (Radio.duration_per_event r))) by (unfold n; rewrite Hd; reflexivity).
  destruct (RenderFacts.lv_loop_spec n Render.effects objs RenderFacts.effects_nodup) as [Hmap Hin].
  rewrite Hl, <- Hn. split; [exact Hmap |].
  eexists. split; [exact (Hin e He) | split].
  - apply RenderFacts.effect_levels_length.
  - apply RenderFacts.effect_levels_nth. exact Hi.
Qed.

Lemma render_effect_levels_witness :
  In Render.Noise Render.effects /\
  (0 < length (Render.ro_duration_per_event
                 (fst (fst (Render.render Samples.plain_radio (Samples.const_objs true)
                                          (PyRandom.seed 0))))))%nat /\
  let out := fst (fst (Render.render Samples.plain_radio (Samples.const_objs true)
                                     (PyRandom.seed 0))) in
  let n := length (Render.ro_duration_per_event out) in
  let o := Samples.const_objs true Render.Noise in
  let bs := Aux.gate_answers n (Render.activity_object o) (Render.activity_lv o) in
  map fst (Render.lv_per_effect out) = Render.effects /\
  exists xs, In (Render.Noise, xs) (Render.lv_per_effect out) /\ length xs = n /\
    nth 0 xs 0%Q =
    if nth 0 bs false then Str_nth (Aux.count_true (firstn 0 bs)) (Render.level o) else 0%Q.
Proof.
  assert (H1 : In Render.Noise Render.effects) by (simpl; tauto).
  assert (H2 : (0 < length (Render.ro_duration_per_event
                 (fst (fst (Render.render Samples.plain_radio (Samples.const_objs true)
                                          (PyRandom.seed 0))))))%nat)
    by (apply Nat.ltb_lt; vm_compute; reflexivity).
  split; [exact H1 | split; [exact H2 |]].
  exact (render_effect_levels Samples.plain_radio (Samples.const_objs true) (PyRandom.seed 0)
           Render.Noise 0 H1 H2).
Defined.

(** C8: the ambient-noise pairs of [render] are as many as the events kept;
    the leading value of event [0] is [0], the leading value of every later
    event is the trailing value of the event before it, and the trailing
    value of event [i] is the [i]-th draw of [uniform(0.2, 0.4)] from the
    random module reseeded with 1, whatever the random state before. *)
Theorem render_ambient_noise_chain (r : Radio.radio) (objs : Render.effect -> Render.effect_obj)
    (s : PyRandom.state) (i : nat) :
  let out := fst (fst (Render.render r objs s)) in
  let n := length (Render.ro_duration_per_event out) in
  let amb := Render.ambient_noise_lv_per_event out in
  let us := fst (Render.uniform_draws n (1 # 5) (2 # 5) (PyRandom.seed 1)) in
  (i < n)%nat ->
  length amb = n /\
  snd (nth i amb (0%Q, 0%Q)) = nth i us 0%Q /\
  fst (nth i amb (0%Q, 0%Q)) = (if i =? 0 then 0%Q else snd (nth (i - 1) amb (0%Q, 0%Q)))%nat.
Proof.
  intros out n amb us Hi.
  destruct (RenderFacts.render_unfold r objs s) as [Hd [_ Ha]]. cbv zeta in Hd, Ha.
  fold out in Hd, Ha. fold amb in Ha.
  assert (Hn : n = length (firstn (Render.budget (Radio.r_duration r) (Radio.duration_per_event r))
                                  (Radio.duration_per_event r))) by (unfold n; rewrite Hd; reflexivity).
  rewrite <- Hn in Ha. fold us in Ha.
  assert (Hu : length us = n) by apply RenderFacts.uniform_draws_length.
  rewrite Ha, RenderFacts.combine_shift_nth by lia. cbn [fst snd].
  split; [| split; [reflexivity |]].
  - rewrite length_combine. cbn [length]. rewrite Hu. lia.
  - destruct i as [|i]; [reflexivity |].
    rewrite RenderFacts.combine_shift_nth by lia. simpl. rewrite Nat.sub_0_r. reflexivity.
Qed.

Lemma render_ambient_noise_chain_witness :
  let out := fst (fst (Render.render Samples.plain_radio (Samples.const_objs true)
                                     (PyRandom.seed 0))) in
  let n := length (Render.ro_duration_per_event out) in
  let amb := Render.ambient_noise_lv_per_event out in
  let us := fst (Render.uniform_draws n (1 # 5) (2 # 5) (PyRandom.seed 1)) in
  (1 < n)%nat /\
  length amb = n /\
  snd (nth 1 amb (0%Q, 0%Q)) = nth 1 us 0%Q /\
  fst (nth 1 amb (0%Q, 0%Q)) = (if 1 =? 0 then 0%Q else snd (nth (1 - 1) amb (0%Q, 0%Q)))%nat.
Proof.
  intros out n amb us.
  assert (H : (1 < n)%nat) by (apply Nat.ltb_lt; vm_compute; reflexivity).
  split; [exact H |].
  exact (render_ambient_noise_chain Samples.plain_radio (Samples.const_objs true)
           (PyRandom.seed 0) 1 H).
Defined.

(** ** The shared default dictionaries *)

Module DefaultsFacts.
Import SharedDefaults.

Lemma dict_update_get h l k v : dict_get (dict_update h l k v) l !! k = Some v.
Proof.
  unfold dict_update. unfold dict_get at 1. cbn [objs].
  rewrite lookup_insert_eq. apply lookup_insert_eq.
Qed.

Lemma dict_update_keep h l' k' v' l k v :
  l' <> l \/ dict_get h l' !! k' = None ->
  dict_get h l !! k = Some v -> dict_get (dict_update h l' k' v') l !! k = Some v.
Proof.
  intros Hc Hv. unfold dict_update. unfold dict_get at 1. cbn [objs].
  destruct (decide (l' = l)) as [<-|Hne].
  - rewrite lookup_insert_eq. rewrite lookup_insert_ne; [exact Hv |].
    intros ->. destruct Hc as [Hc|Hc]; [contradiction | congruence].
  - rewrite lookup_insert_ne by exact Hne. exact Hv.
Qed.

Lemma alloc_get h o l : l <> next_loc h -> dict_get (snd (alloc h o)) l = dict_get h l.
Proof.
  intros Hl. unfold alloc, dict_get. cbn [snd objs].
  rewrite lookup_insert_ne by congruence. reflexivity.
Qed.

(** The first half of [fill_effect]: the activity entry. *)
Lemma fill_activity_step act h name :
  let h1 := match dict_get h act !! name with
            | Some _ => h | None => dict_update h act name (VInt 0) end in
  next_loc h1 = next_loc h /\ is_Some (dict_get h1 act !! name) /\
  forall l k v, dict_get h l !! k = Some v -> dict_get h1 l !! k = Some v.
Proof.
  cbv zeta. destruct (dict_get h act !! name) as [x|] eqn:E.
  - split; [reflexivity | split; [exists x; exact E | intros; assumption]].
  - split; [reflexivity | split].
    + eexists. apply dict_update_get.
    + intros l k v Hv. apply dict_update_keep; [right; exact E | exact Hv].
Qed.

Lemma fill_effect_spec act lvl h name :
  (act < next_loc h)%positive -> (lvl < next_loc h)%positive ->
  (next_loc h <= next_loc (fill_effect act lvl h name))%positive /\
  is_Some (dict_get (fill_effect act lvl h name) act !! name) /\
  is_Some (dict_get (fill_effect act lvl h name) lvl !! name).
Proof.
  intros Ha Hl. unfold fill_effect.
  destruct (fill_activity_step act h name) as [Hn1 [Hs1 _]]. cbv zeta in Hn1, Hs1.
  set (h1 := match dict_get h act !! name with
             | Some _ => h | None => dict_update h act name (VInt 0) end) in *.
  clearbody h1.
  destruct (dict_get h1 lvl !! name) as [y|] eqn:E2.
  - split; [lia | split; [exact Hs1 | exists y; exact E2]].
  - destruct (alloc h1 (OCycle [1])) as [c h2] eqn:EA.
    assert (Hh2 : h2 = snd (alloc h1 (OCycle [1]))) by (rewrite EA; reflexivity).
    assert (Hn2 : next_loc h2 = Pos.succ (next_loc h1)) by (rewrite Hh2; reflexivity).
    split; [cbn [next_loc dict_update]; unfold dict_update; cbn [next_loc]; lia | split].
    + destruct (decide (lvl = act)) as [->|Hne].
      * eexists. apply dict_update_get.
      * destruct Hs1 as [x Hx]. exists x. apply dict_update_keep; [left; exact Hne |].
        rewrite Hh2, alloc_get by lia. exact Hx.
    + eexists. apply dict_update_get.
Qed.

Lemma fill_effect_keep act lvl h name l k v :
  (l < next_loc h)%positive -> dict_get h l !! k = Some v ->
  (next_loc h <= next_loc (fill_effect act lvl h name))%positive /\
  dict_get (fill_effect act lvl h name) l !! k = Some v.
Proof.
  intros Hl Hv. unfold fill_effect.
  destruct (fill_activity_step act h name) as [Hn1 [_ Hk1]]. cbv zeta in Hn1, Hk1.
  set (h1 := match dict_get h act !! name with
             | Some _ => h | None => dict_update h act name (VInt 0) end) in *.
  clearbody h1. specialize (Hk1 l k v Hv).
  destruct (dict_get h1 lvl !! name) as [y|] eqn:E2; [split; [lia | exact Hk1] |].
  destruct (alloc h1 (OCycle [1])) as [c h2] eqn:EA.
  assert (Hh2 : h2 = snd (alloc h1 (OCycle [1]))) by (rewrite EA; reflexivity).
  assert (Hn2 : next_loc h2 = Pos.succ (next_loc h1)) by (rewrite Hh2; reflexivity).
  assert (Hg : dict_get h2 l = dict_get h1 l) by (rewrite Hh2; apply alloc_get; lia).
  split; [unfold dict_update; cbn [next_loc]; lia |].
  apply dict_update_keep; [| rewrite Hg; exact Hk1].
  destruct (decide (lvl = l)) as [->|Hne]; [right; rewrite Hg; exact E2 | left; exact Hne].
Qed.

Lemma fold_fill_keep act lvl names h l k v :
  (l < next_loc h)%positive -> dict_get h l !! k = Some v ->
  (next_loc h <= next_loc (fold_left (fill_effect act lvl) names h))%positive /\
  dict_get (fold_left (fill_effect act lvl) names h) l !! k = Some v.
Proof.
  revert h. induction names as [|name r IH]; intros h Hl Hv; simpl; [split; [lia | exact Hv] |].
  destruct (fill_effect_keep act lvl h name l k v Hl Hv) as [Hn Hk].
  destruct (IH (fill_effect act lvl h name)) as [Hn' Hk']; [lia | exact Hk |].
  split; [lia | exact Hk'].
Qed.

Lemma fold_fill_next act lvl names h :
  (act < next_loc h)%positive -> (lvl < next_loc h)%positive ->
  (next_loc h <= next_loc (fold_left (fill_effect act lvl) names h))%positive.
Proof.
  revert h. induction names as [|name r IH]; intros h Ha Hl; simpl; [lia |].
  destruct (fill_effect_spec act lvl h name Ha Hl) as [Hn _].
  specialize (IH (fill_effect act lvl h name) ltac:(lia) ltac:(lia)). lia.
Qed.

Lemma fold_fill_has act lvl names h :
  (act < next_loc h)%positive -> (lvl < next_loc h)%positive ->
  forall name, In name names ->
  is_Some (dict_get (fold_left (fill_effect act lvl) names h) act !! name) /\
  is_Some (dict_get (fold_left (fill_effect act lvl) names h) lvl !! name).
Proof.
  revert h. induction names as [|n0 r IH]; intros h Ha Hl name Hin; [destruct Hin |].
  destruct (fill_effect_spec act lvl h n0 Ha Hl) as [Hn [[x Hx] [y Hy]]].
  destruct Hin as [<- | Hin]; simpl.
  - split.
    + exists x. apply (fold_fill_keep act lvl r _ act n0 x); [lia | exact Hx].
    + exists y. apply (fold_fill_keep act lvl r _ lvl n0 y); [lia | exact Hy].
  - apply IH; [lia | lia | exact Hin].
Qed.

Lemma init_many_keep later h l k v :
  (l < next_loc h)%positive -> dict_get h l !! k = Some v ->
  dict_get (init_many h later) l !! k = Some v.
Proof.
  revert h. induction later as [|[a b] r IH]; intros h Hl Hv; cbn [init_many]; [exact Hv |].
  unfold init_dicts. cbv zeta. cbn [snd].
  match goal with |- context [fold_left (fill_effect ?x ?y) effect_names h] =>
    destruct (fold_fill_keep x y effect_names h l k v Hl Hv) as [Hn Hk] end.
  apply IH; [eapply Pos.lt_le_trans; [exact Hl | exact Hn] | exact Hk].
Qed.

End DefaultsFacts.

(** C10: a construction keeps in the instance the very dictionaries it was
    given, or the shared defaults created with the function when an argument
    is left out, and fills them in place: afterwards each holds an entry for
    every effect name, entries already present are kept unchanged, and every
    entry of these dictionaries stays present through any sequence of later
    constructions on the same heap. *)
Theorem shared_default_dicts_grow (h : SharedDefaults.heap)
    (act_arg lvl_arg : option SharedDefaults.loc)
    (later : list (option SharedDefaults.loc * option SharedDefaults.loc)) :
  let act := match act_arg with Some l => l | None => SharedDefaults.default_activity_lv_per_effect end in
  let lvl := match lvl_arg with Some l => l | None => SharedDefaults.default_level_per_effect end in
  (act < SharedDefaults.next_loc h)%positive -> (lvl < SharedDefaults.next_loc h)%positive ->
  let inst := fst (SharedDefaults.init_dicts h act_arg lvl_arg) in
  let h' := snd (SharedDefaults.init_dicts h act_arg lvl_arg) in
  SharedDefaults.activity_lv_per_effect inst = act /\
  SharedDefaults.level_per_effect inst = lvl /\
  (forall name, In name SharedDefaults.effect_names ->
     is_Some (SharedDefaults.dict_get h' act !! name) /\
     is_Some (SharedDefaults.dict_get h' lvl !! name)) /\
  (forall l k v, (l < SharedDefaults.next_loc h)%positive ->
     SharedDefaults.dict_get h l !! k = Some v -> SharedDefaults.dict_get h' l !! k = Some v) /\
  (forall l k v, (l < SharedDefaults.next_loc h)%positive ->
     SharedDefaults.dict_get h' l !! k = Some v ->
     SharedDefaults.dict_get (SharedDefaults.init_many h' later) l !! k = Some v).
Proof.
  intros act lvl Ha Hl inst h'.
  assert (Hh' : h' = fold_left (SharedDefaults.fill_effect act lvl) SharedDefaults.effect_names h)
    by reflexivity.
  split; [reflexivity | split; [reflexivity | split; [| split]]].
  - rewrite Hh'. apply DefaultsFacts.fold_fill_has; assumption.
  - intros l k v Hlt Hv. rewrite Hh'.
    apply (DefaultsFacts.fold_fill_keep act lvl _ h l k v Hlt Hv).
  - intros l k v Hlt Hv. apply DefaultsFacts.init_many_keep; [| exact Hv].
    pose proof (DefaultsFacts.fold_fill_next act lvl SharedDefaults.effect_names h Ha Hl) as Hn.
    rewrite Hh'. eapply Pos.lt_le_trans; [exact Hlt | exact Hn].
Qed.

Lemma shared_default_dicts_grow_witness :
  let h := Samples.fresh_heap in
  let later := [(None, Some 1%positive)] in
  (SharedDefaults.default_activity_lv_per_effect < SharedDefaults.next_loc h)%positive /\
  (SharedDefaults.default_level_per_effect < SharedDefaults.next_loc h)%positive /\
  let act := SharedDefaults.default_activity_lv_per_effect in
  let lvl := SharedDefaults.default_level_per_effect in
  let inst := fst (SharedDefaults.init_dicts h None None) in
  let h' := snd (SharedDefaults.init_dicts h None None) in
  SharedDefaults.activity_lv_per_effect inst = act /\
  SharedDefaults.level_per_effect inst = lvl /\
  (forall name, In name SharedDefaults.effect_names ->
     is_Some (SharedDefaults.dict_get h' act !! name) /\
     is_Some (SharedDefaults.dict_get h' lvl !! name)) /\
  (forall l k v, (l < SharedDefaults.next_loc h)%positive ->
     SharedDefaults.dict_get h l !! k = Some v -> SharedDefaults.dict_get h' l !! k = Some v) /\
  (forall l k v, (l < SharedDefaults.next_loc h)%positive ->
     SharedDefaults.dict_get h' l !! k = Some v ->
     SharedDefaults.dict_get (SharedDefaults.init_many h' later) l !! k = Some v).
Proof.
  intros h later.
  assert (Ha : (SharedDefaults.default_activity_lv_per_effect < SharedDefaults.next_loc h)%positive)
    by reflexivity.
  assert (Hl : (SharedDefaults.default_level_per_effect < SharedDefaults.next_loc h)%positive)
    by reflexivity.
  split; [exact Ha | split; [exact Hl |]].
  exact (shared_default_dicts_grow h None None later Ha Hl).
Defined.

(** ** Attribute defaults: [SlicePlayer] and [Sampler] *)

Module AttrFacts.
Import PyAttrs.

Lemma fill_missing_lookup d a k :
  fill_missing d a !! k = match a !! k with Some v => Some v | None => default_of d k end.
Proof.
  revert a. induction d as [|[k0 v0] d IH]; intros a; unfold fill_missing in *; cbn [fold_left fst snd].
  - unfold default_of. simpl. destruct (a !! k); reflexivity.
  - rewrite IH. unfold default_of. cbn [find fst snd].
    destruct (String.eqb_spec k0 k) as [<-|Hne].
    + destruct (a !! k0) as [v|] eqn:E; [rewrite E; reflexivity |].
      rewrite lookup_insert_eq. reflexivity.
    + destruct (a !! k0) as [v|] eqn:E; [reflexivity |].
      rewrite lookup_insert_ne by exact Hne. reflexivity.
Qed.

Lemma fill_missing_id d a :
  (forall kv, In kv d -> is_Some (a !! fst kv)) -> fill_missing d a = a.
Proof.
  revert a. induction d as [|kv d IH]; intros a H; [reflexivity |].
  unfold fill_missing. cbn [fold_left].
  destruct (H kv (or_introl eq_refl)) as [v Hv]. rewrite Hv.
  apply IH. intros kv' Hin. apply H. right. exact Hin.
Qed.

Lemma fill_missing_present d a kv : In kv d -> is_Some (fill_missing d a !! fst kv).
Proof.
  intros Hin. rewrite fill_missing_lookup. destruct (a !! fst kv) as [v|]; [eexists; reflexivity |].
  unfold default_of.
  destruct (find (fun kv0 => String.eqb (fst kv0) (fst kv)) d) as [kv0|] eqn:E; [eexists; reflexivity |].
  pose proof (find_none _ _ E kv Hin) as Hf. cbv beta in Hf. rewrite String.eqb_refl in Hf. discriminate.
Qed.










End AttrFacts.

(** [SlicePlayer.__init__] fills each missing attribute of
    [attributes_to_set_n] with its default and never overwrites an attribute
    the event passed. *)
Theorem slice_player_defaults (args : PyAttrs.attrs) (k : string) :
  PyAttrs.fill_missing SlicePlayer.attributes_to_set_n args !! k =
  match args !! k with
  | Some v => Some v
  | None => PyAttrs.default_of SlicePlayer.attributes_to_set_n k
  end.
Proof. apply AttrFacts.fill_missing_lookup. Qed.



(** [Sampler.__init__]: the duration is the sound file's duration times
    [loops] when [loops] is given (a [duration] passed with it is ignored),
    else the [duration] passed, else the file's duration; the keyword
    arguments keep what the caller passed and get the [init_args] defaults
    for the rest, so [render] always finds a [volume]. *)
Theorem sampler_init_spec (sndinfo_duration : string -> Q) (p : string) (d loops : option Q)
    (kwargs : PyAttrs.attrs) :
  let s := Sampler.init sndinfo_duration p d loops kwargs in
  Sampler.duration s =
    match loops with
    | Some l => (sndinfo_duration p * l)%Q
    | None => match d with Some d0 => d0 | None => sndinfo_duration p end
    end /\
  (forall k, Sampler.s_init_args s !! k =
     match kwargs !! k with Some v => Some v | None => PyAttrs.default_of Sampler.init_args k end) /\
  Sampler.render_volume s =
    match kwargs !! "volume"%string with Some v => Some v | None => Some (PyAttrs.PNum 1) end.
Proof.
  cbv zeta. split; [| split].
  - unfold Sampler.init. cbn [Sampler.duration]. destruct d, loops; reflexivity.
  - intros k. apply AttrFacts.fill_missing_lookup.
  - unfold Sampler.render_volume. cbn [Sampler.s_init_args Sampler.init].
    rewrite AttrFacts.fill_missing_lookup. destruct (kwargs !! "volume"%string); reflexivity.
Qed.

(** [Sampler.copy] gives back the same sampler: same path, same duration
    (even one computed from [loops]) and the same keyword arguments. *)
Theorem sampler_copy_roundtrip (sndinfo_duration : string -> Q) (p : string) (d loops : option Q)
    (kwargs : PyAttrs.attrs) :
  let s := Sampler.init sndinfo_duration p d loops kwargs in
  Sampler.copy sndinfo_duration s = s.
Proof.
  cbv zeta. remember (Sampler.init sndinfo_duration p d loops kwargs) as s eqn:Hs.
  assert (Ha : Sampler.s_init_args s = PyAttrs.fill_missing Sampler.init_args kwargs)
    by (rewrite Hs; reflexivity).
  destruct s as [p' d' a']. cbn [Sampler.s_init_args] in Ha. subst a'.
  unfold Sampler.copy, Sampler.init. cbn [Sampler.path Sampler.duration Sampler.s_init_args].
  rewrite (AttrFacts.fill_missing_id _ (PyAttrs.fill_missing Sampler.init_args kwargs));
    [reflexivity |].
  intros kv Hin. apply AttrFacts.fill_missing_present, Hin.
Qed.

(** ** The ambient-noise levels *)

Module RandomBounds.
Import PyRandom RandomInv.


Lemma pow32 : 2 ^ 32 = 4294967296.
Proof. reflexivity. Qed.

Lemma word_bits x m : word x -> 32 <= m -> Z.testbit x m = false.
Proof.
  intros [H0 H1] Hm. rewrite <- (Z.mod_small x (2 ^ 32)) by (rewrite pow32; lia).
  apply Z.mod_pow2_bits_high. lia.
Qed.

Lemma word_of_bits x : 0 <= x -> (forall m, 32 <= m -> Z.testbit x m = false) -> word x.
Proof.
  intros H0 Hb. split; [exact H0 |].
  assert (Hx : x = Z.land x (Z.ones 32)).
  { apply Z.bits_inj'. intros n Hn. rewrite Z.land_spec.
    destruct (Z.lt_ge_cases n 32) as [Hlt | Hge].
    - rewrite Z.ones_spec_low by lia. rewrite andb_true_r. reflexivity.
    - rewrite Z.ones_spec_high by lia. rewrite (Hb n Hge). reflexivity. }
  rewrite Hx, Z.land_ones by lia. rewrite <- pow32. apply Z.mod_pos_bound. lia.
Qed.

Lemma word_lxor a b : word a -> word b -> word (Z.lxor a b).
Proof.
  intros Ha Hb. apply word_of_bits.
  - apply Z.lxor_nonneg. unfold word in *. lia.
  - intros m Hm. rewrite Z.lxor_spec, (word_bits a), (word_bits b) by assumption. reflexivity.
Qed.

Lemma word_lor a b : word a -> word b -> word (Z.lor a b).
Proof.
  intros Ha Hb. apply word_of_bits.
  - apply Z.lor_nonneg. unfold word in *. lia.
  - intros m Hm. rewrite Z.lor_spec, (word_bits a), (word_bits b) by assumption. reflexivity.
Qed.

Lemma word_land a b : word b -> word (Z.land a b).
Proof.
  intros Hb. apply word_of_bits.
  - apply Z.land_nonneg. unfold word in *. lia.
  - intros m Hm. rewrite Z.land_spec, (word_bits b) by assumption. apply andb_false_r.
Qed.

Lemma word_shiftr a n : word a -> 0 <= n -> word (Z.shiftr a n).
Proof.
  intros Ha Hn. apply word_of_bits.
  - apply Z.shiftr_nonneg. unfold word in *. lia.
  - intros m Hm. rewrite Z.shiftr_spec by lia. apply word_bits; [exact Ha | lia].
Qed.

Lemma word_mask a : word (Z.land a mask32).
Proof. apply word_land. unfold word, mask32. lia. Qed.

Lemma znth_word l i : Forall word l -> word (znth l i).
Proof.
  revert i. induction l as [|x l IH]; intros i H; [unfold word; simpl; lia |].
  inversion H; subst. destruct i; simpl; auto.
Qed.

Lemma zset_word l i v : Forall word l -> word v -> Forall word (zset l i v).
Proof.
  revert i. induction l as [|x l IH]; intros i H Hv; [constructor |].
  inversion H; subst. destruct i; simpl; constructor; auto.
Qed.

Lemma twist_loop_word m kk fuel : Forall word m -> Forall word (twist_loop m kk fuel).
Proof.
  revert m kk. induction fuel as [|f IH]; intros m kk H; [exact H |].
  cbn [twist_loop]. cbv zeta. apply IH. apply zset_word; [exact H |].
  apply word_lxor; [apply word_lxor |].
  - apply znth_word, H.
  - apply word_shiftr; [| lia]. apply word_lor; apply word_land; unfold word; lia.
  - destruct (Z.odd _); unfold word; lia.
Qed.

Lemma temper_word y : word y -> word (temper y).
Proof.
  intros Hy. unfold temper.
  assert (Hc1 : word 2636928640) by (unfold word; lia).
  assert (Hc2 : word 4022730752) by (unfold word; lia).
  apply word_lxor; [| apply word_shiftr; [| lia]];
  repeat first [ apply word_lxor | apply word_land; assumption | exact Hy
               | apply word_shiftr; [| lia] ].
Qed.

Lemma genrand_word s :
  Forall word (mt s) -> word (fst (genrand s)) /\ Forall word (mt (snd (genrand s))).
Proof.
  intros H. unfold genrand.
  destruct (Nat.leb N_ (index s)); cbn [fst snd mt]; split.
  - apply temper_word, znth_word, twist_loop_word, H.
  - apply twist_loop_word, H.
  - apply temper_word, znth_word, H.
  - exact H.
Qed.

Lemma random_bounds s :
  Forall word (mt s) ->
  (0 <= fst (random s) < 1)%Q /\ Forall word (mt (snd (random s))).
Proof.
  intros H. unfold random.
  destruct (genrand_word s H) as [Hy1 H1].
  destruct (genrand s) as [y1 s1]. cbn [fst snd] in *.
  destruct (genrand_word s1 H1) as [Hy2 H2].
  destruct (genrand s1) as [y2 s2]. cbn [fst snd] in *.
  split; [| exact H2].
  rewrite !Z.shiftr_div_pow2 by lia.
  change (2 ^ 5) with 32. change (2 ^ 6) with 64.
  unfold word in *.
  assert (0 <= y1 / 32 < 134217728) by (split; [apply Z.div_pos | apply Z.div_lt_upper_bound]; lia).
  assert (0 <= y2 / 64 < 67108864) by (split; [apply Z.div_pos | apply Z.div_lt_upper_bound]; lia).
  unfold Qle, Qlt. cbn [Qnum Qden]. split; lia.
Qed.

Lemma uniform_draws_bounds n s :
  Forall word (mt s) ->
  Forall (fun u => 1 # 5 <= u < 2 # 5)%Q (fst (Render.uniform_draws n (1 # 5) (2 # 5) s)).
Proof.
  revert s. induction n as [|n IH]; intros s H; [constructor |].
  cbn [Render.uniform_draws]. unfold uniform.
  destruct (random_bounds s H) as [[Hr0 Hr1] Hs].
  destruct (random s) as [r s1]. cbn [fst snd] in *.
  specialize (IH s1 Hs).
  destruct (Render.uniform_draws n (1 # 5) (2 # 5) s1) as [us s2]. cbn [fst] in *.
  constructor; [split; lra | exact IH].
Qed.

Lemma init_genrand_from_word prev i fuel : Forall word (init_genrand_from prev i fuel).
Proof.
  revert prev i. induction fuel as [|f IH]; intros prev i; constructor; auto using word_mask.
Qed.

Lemma init_genrand_word s : Forall word (init_genrand s).
Proof. constructor; [apply word_mask | apply init_genrand_from_word]. Qed.

Lemma loop1_word m key i j k :
  Forall word m -> Forall word (fst (init_by_array_loop1 m key i j k)).
Proof.
  revert m i j. induction k as [|k IH]; intros m i j H; [exact H |].
  cbn [init_by_array_loop1]. cbv zeta.
  assert (H1 : Forall word (zset m i (Z.land (Z.lxor (znth m i)
             (Z.lxor (znth m (i - 1)) (Z.shiftr (znth m (i - 1)) 30) * 1664525)
             + znth key j + Z.of_nat j) mask32))) by (apply zset_word; auto using word_mask).
  destruct (Nat.leb N_ (S i)); apply IH; auto using zset_word, znth_word.
Qed.

Lemma loop2_word m i k : Forall word m -> Forall word (init_by_array_loop2 m i k).
Proof.
  revert m i. induction k as [|k IH]; intros m i H; [exact H |].
  cbn [init_by_array_loop2]. cbv zeta.
  assert (H1 : Forall word (zset m i (Z.land (Z.lxor (znth m i)
             (Z.lxor (znth m (i - 1)) (Z.shiftr (znth m (i - 1)) 30) * 1566083941)
             - Z.of_nat i) mask32))) by (apply zset_word; auto using word_mask).
  destruct (Nat.leb N_ (S i)); apply IH; auto using zset_word, znth_word.
Qed.

(** [random.seed(n)] leaves 32-bit words in the state. *)
Lemma seed_word n : Forall word (mt (seed n)).
Proof.
  unfold seed, init_by_array.
  pose proof (loop1_word (init_genrand 19650218) (key_chunks (Z.abs n) 64) 1 0
                (Nat.max N_ (length (key_chunks (Z.abs n) 64))) (init_genrand_word _)) as H.
  destruct (init_by_array_loop1 _ _ _ _ _) as [mt1 i1]. cbn [fst] in H. cbn [mt].
  apply zset_word; [apply loop2_word, H | unfold word; lia].
Qed.

End RandomBounds.

(** [BrokenRadio.render]: every ambient-noise ramp ends at a level drawn in
    [0.2, 0.4), and starts at 0 for the first event and at a level in
    [0.2, 0.4) for every later one. *)
Theorem render_ambient_noise_range (r : Radio.radio) objs s i :
  let amb := Render.ambient_noise_lv_per_event (fst (fst (Render.render r objs s))) in
  (i < length amb)%nat ->
  (1 # 5 <= snd (nth i amb (0%Q, 0%Q)) < 2 # 5)%Q /\
  (i = O -> fst (nth i amb (0%Q, 0%Q)) = 0%Q) /\
  ((0 < i)%nat -> (1 # 5 <= fst (nth i amb (0%Q, 0%Q)) < 2 # 5)%Q).
Proof.
  cbv zeta. destruct (RenderFacts.render_unfold r objs s) as [_ [_ Ha]]. cbv zeta in Ha.
  rewrite Ha. clear Ha.
  pose proof (RandomBounds.uniform_draws_bounds
     (length (firstn (Render.budget (Radio.r_duration r) (Radio.duration_per_event r))
                     (Radio.duration_per_event r))) (PyRandom.seed 1)
     (RandomBounds.seed_word 1)) as Hb.
  generalize dependent (fst (Render.uniform_draws
     (length (firstn (Render.budget (Radio.r_duration r) (Radio.duration_per_event r))
                     (Radio.duration_per_event r))) (1 # 5) (2 # 5) (PyRandom.seed 1))).
  intros us Hb Hi.
  assert (Hl : length (combine (0%Q :: us) us) = length us).
  { rewrite length_combine. cbn [length]. lia. }
  rewrite Hl in Hi. rewrite RenderFacts.combine_shift_nth by exact Hi. cbn [fst snd].
  rewrite List.Forall_forall in Hb. split; [| split].
  - apply Hb, nth_In, Hi.
  - intros ->. reflexivity.
  - intros Hpos. destruct i as [|j]; [lia |]. cbn [nth]. apply Hb, nth_In. lia.
Qed.

Lemma render_ambient_noise_range_witness :
  (0 < length (Render.ambient_noise_lv_per_event
     (fst (fst (Render.render Samples.plain_radio (Samples.const_objs true) (PyRandom.seed 3))))))%nat /\
  (1 # 5 <= snd (nth 0 (Render.ambient_noise_lv_per_event
     (fst (fst (Render.render Samples.plain_radio (Samples.const_objs true) (PyRandom.seed 3))))) (0%Q, 0%Q))
   < 2 # 5)%Q.
Proof.
  assert (H : (0 < length (Render.ambient_noise_lv_per_event
     (fst (fst (Render.render Samples.plain_radio (Samples.const_objs true) (PyRandom.seed 3))))))%nat)
    by (vm_compute; lia).
  split; [exact H |].
  exact (proj1 (render_ambient_noise_range Samples.plain_radio (Samples.const_objs true)
                  (PyRandom.seed 3) 0 H)).
Defined.

(** ** Building and copying a radio *)

Module RadioFacts.
Import Radio.

Lemma prepare_ok_inv e c s r s' :
  prepare e c s = Ok (r, s') ->
  detect_files (listdir e) (sources c) (orders_of c) (skips_of c) s = Ok (path_per_source r, s') /\
  data_per_source r = map (map (sndinfo_duration e)) (path_per_source r) /\
  maxima_n_events_of (interlocking c) (path_per_source r) = Ok (maxima_n_events r) /\
  sample_keys (interlocking c) (path_per_source r) (maxima_n_events r) (decider_of c)
    = (sample_key_per_event r, r_source_decider r) /\
  mapR (lookup_key (path_per_source r)) (sample_key_per_event r) = Ok (sample_path_per_event r) /\
  mapR (lookup_key (data_per_source r)) (sample_key_per_event r) = Ok (duration_per_sample r) /\
  event_durations (duration_per_sample r) (pause_per_event c)
    = (duration_per_event r, r_pause_per_event r) /\
  maxima_duration r = qsum (duration_per_event r) /\ r_duration r = duration c.
Proof.
  unfold prepare, bind. cbv zeta. intros H.
  destruct (detect_files _ _ _ _ s) as [[pps s1]|] eqn:E1; [| discriminate]. cbn [fst snd] in H.
  destruct (maxima_n_events_of _ pps) as [n|] eqn:E2; [| discriminate].
  destruct (sample_keys _ pps n _) as [keys d'] eqn:E3.
  destruct (mapR (lookup_key pps) keys) as [paths|] eqn:E4; [| discriminate].
  destruct (mapR (lookup_key (map (map (sndinfo_duration e)) pps)) keys) as [dps|] eqn:E5;
    [| discriminate].
  destruct (event_durations dps (pause_per_event c)) as [dpe p'] eqn:E6.
  injection H as <- <-. cbn.
  repeat split; assumption.
Qed.

Lemma py_index_map {A B} (f : A -> B) l i :
  py_index (map f l) i = match py_index l i with Ok x => Ok (f x) | Err e => Err e end.
Proof.
  unfold py_index. rewrite length_map.
  destruct (_ && _); [| reflexivity].
  rewrite nth_error_map. destruct (nth_error l _); reflexivity.
Qed.

Lemma lookup_key_map {A B} (f : A -> B) t k :
  lookup_key (map (map f) t) k = match lookup_key t k with Ok x => Ok (f x) | Err e => Err e end.
Proof.
  unfold lookup_key, bind. rewrite py_index_map.
  destruct (py_index t (fst k)) as [row|]; [| reflexivity]. apply py_index_map.
Qed.

Lemma mapR_map {A B} (f : A -> B) t keys :
  mapR (lookup_key (map (map f) t)) keys =
  match mapR (lookup_key t) keys with Ok l => Ok (map f l) | Err e => Err e end.
Proof.
  induction keys as [|k keys IH]; [reflexivity |]. cbn [mapR]. unfold bind.
  rewrite lookup_key_map. destruct (lookup_key t k); [| reflexivity].
  fold (@bind (list A)). rewrite IH. unfold bind.
  destruct (mapR (lookup_key t) keys); reflexivity.
Qed.

Lemma mapR_length {A B} (f : A -> result B) l ys : mapR f l = Ok ys -> length ys = length l.
Proof.
  revert ys. induction l as [|x l IH]; intros ys H; cbn [mapR bind] in H.
  - injection H as <-. reflexivity.
  - destruct (f x); [| discriminate]. cbn [bind] in H.
    destruct (mapR f l) as [ys'|]; [| discriminate]. injection H as <-. cbn. f_equal. apply IH.
    reflexivity.
Qed.


Lemma mapR_nth {A B} (f : A -> result B) l ys i d d' :
  mapR f l = Ok ys -> (i < length l)%nat -> f (nth i l d) = Ok (nth i ys d').
Proof.
  revert ys i. induction l as [|x l IH]; intros ys i H Hi; [simpl in Hi; lia |].
  cbn [mapR bind] in H. destruct (f x) as [y|] eqn:Ef; [| discriminate]. cbn [bind] in H.
  destruct (mapR f l) as [ys'|] eqn:Em; [| discriminate]. injection H as <-.
  destruct i as [|i]; [exact Ef |]. cbn [nth]. apply IH; [reflexivity | simpl in Hi; lia].
Qed.

Lemma event_durations_spec dps p :
  length (fst (event_durations dps p)) = length dps /\
  (forall i, (i < length dps)%nat ->
     nth i (fst (event_durations dps p)) 0%Q = (nth i dps 0%Q - 1 + Str_nth i p)%Q) /\
  snd (event_durations dps p) = Str_nth_tl (length dps) p.
Proof.
  revert p. induction dps as [|d dps IH]; intros p.
  - split; [reflexivity | split; [intros i Hi; simpl in Hi; lia | reflexivity]].
  - cbn [event_durations]. destruct (IH (Streams.tl p)) as [H1 [H2 H3]].
    destruct (event_durations dps (Streams.tl p)) as [rest p'] eqn:E. cbn [fst snd] in *.
    split; [cbn; lia | split].
    + intros [|i] Hi; [reflexivity |]. cbn [nth]. rewrite H2 by (simpl in Hi; lia).
      reflexivity.
    + rewrite H3. reflexivity.
Qed.

Lemma init_ok_prepare e c s p : init e c s = Ok p -> prepare e c s = Ok p.
Proof.
  unfold init, bind. destruct (prepare e c s) as [p'|]; [| discriminate].
  destruct (Qltb _ _); [intros H; exact H | discriminate].
Qed.

Lemma draws_rest {A} n (it : Stream A) : snd (draws n it) = Str_nth_tl n it.
Proof.
  revert it. induction n as [|n IH]; intros it; [reflexivity |]. cbn [draws].
  specialize (IH (Streams.tl it)). destruct (draws n (Streams.tl it)). exact IH.
Qed.

Lemma sample_keys_parallel pps n d :
  sample_keys "parallel" pps n d = (combine (fst (draws n d)) (seq 0 n), Str_nth_tl n d).
Proof.
  unfold sample_keys. cbn [String.eqb]. rewrite <- (draws_rest n d).
  destruct (draws n d). reflexivity.
Qed.

(** The per-event alignment of lines 232-245, shared by several results. *)
Lemma event_alignment e c s r s' :
  prepare e c s = Ok (r, s') ->
  length (sample_path_per_event r) = length (sample_key_per_event r) /\
  length (duration_per_event r) = length (sample_key_per_event r) /\
  (forall i, (i < length (sample_key_per_event r))%nat ->
     nth i (duration_per_event r) 0%Q =
     (sndinfo_duration e (nth i (sample_path_per_event r) ""%string) - 1
      + Str_nth i (pause_per_event c))%Q) /\
  r_pause_per_event r = Str_nth_tl (length (sample_key_per_event r)) (pause_per_event c).
Proof.
  intros H.
  destruct (prepare_ok_inv e c s r s' H) as [_ [Hdata [_ [_ [Hpaths [Hdps [Hev _]]]]]]].
  rewrite Hdata, mapR_map, Hpaths in Hdps. injection Hdps as Hdps.
  pose proof (mapR_length _ _ _ Hpaths) as Hlp.
  destruct (event_durations_spec (duration_per_sample r) (pause_per_event c)) as [L1 [L2 L3]].
  rewrite Hev in L1, L2, L3. cbn [fst snd] in L1, L2, L3.
  rewrite <- Hdps, length_map in L1, L2, L3.
  split; [exact Hlp | split; [congruence | split]].
  - intros i Hi. rewrite L2 by lia.
    rewrite (nth_indep _ 0%Q (sndinfo_duration e ""%string)) by (rewrite length_map; lia).
    rewrite map_nth. reflexivity.
  - rewrite L3, Hlp. reflexivity.
Qed.











Lemma detect_files_loop_length ld l s pps s' :
  detect_files_loop ld l s = Ok (pps, s') -> length pps = length l.
Proof.
  revert s pps. induction l as [|[[p o] k] l IH]; intros s pps H; cbn [detect_files_loop] in H.
  - injection H as <- _. reflexivity.
  - unfold bind in H. destruct (detect_source ld p o k s) as [[c1 s1]|]; [| discriminate].
    destruct (detect_files_loop ld l _) as [[rest s2]|] eqn:E; [| discriminate].
    injection H as <- Hs. subst s2. cbn. f_equal. eapply IH, E.
Qed.

Lemma zip3_length {A B C} (a : list A) (b : list B) (c : list C) :
  length (zip3 a b c) = Nat.min (length a) (Nat.min (length b) (length c)).
Proof.
  revert b c. induction a as [|x a IH]; intros [|y b] [|z c]; cbn; try reflexivity.
  rewrite IH. reflexivity.
Qed.





Lemma sample_keys_other il pps n d d2 :
  il <> "parallel"%string -> fst (sample_keys il pps n d) = fst (sample_keys il pps n d2).
Proof.
  intros Hne. unfold sample_keys. rewrite (proj2 (String.eqb_neq il "parallel") Hne).
  destruct (String.eqb il "sequential"); reflexivity.
Qed.

Lemma detect_files_any_state ld srcs os ks s s2 :
  detect_files ld srcs os ks s = detect_files ld srcs os ks s2.
Proof. reflexivity. Qed.

End RadioFacts.

Module RadioFacts2.

Lemma detect_files_length (ld : string -> option (list string))
    (srcs os : list string) (ks : list Z) (s : PyRandom.state)
    (pps : list (list string)) (s' : PyRandom.state) :
  Radio.detect_files ld srcs os ks s = Ok (pps, s') ->
  length pps = Nat.min (length srcs) (Nat.min (length os) (length ks)).
Proof.
  intros H. unfold Radio.detect_files in H.
  rewrite (RadioFacts.detect_files_loop_length _ _ _ _ _ H). apply RadioFacts.zip3_length.
Qed.


End RadioFacts2.

(** [BrokenRadio.__init__], lines 232-245: the schedule, the sample paths
    and the event durations are aligned; event [i] lasts the duration of its
    sample minus one second plus the [i]-th pause, and the pause iterator
    is advanced once per event. *)
Theorem radio_event_durations (e : Radio.env) (c : Radio.config) (s : PyRandom.state)
    (r : Radio.radio) (s' : PyRandom.state) :
  Radio.prepare e c s = Ok (r, s') ->
  length (Radio.sample_path_per_event r) = length (Radio.sample_key_per_event r) /\
  length (Radio.duration_per_event r) = length (Radio.sample_key_per_event r) /\
  (forall i, (i < length (Radio.sample_key_per_event r))%nat ->
     nth i (Radio.duration_per_event r) 0%Q =
     (Radio.sndinfo_duration e (nth i (Radio.sample_path_per_event r) ""%string) - 1
      + Str_nth i (Radio.pause_per_event c))%Q) /\
  Radio.r_pause_per_event r =
    Str_nth_tl (length (Radio.sample_key_per_event r)) (Radio.pause_per_event c).
Proof. exact (RadioFacts.event_alignment e c s r s').
Qed.

(** [BrokenRadio.copy] builds a new radio from the same sources, orders,
    skips and duration, and from the very [source_decider] and
    [pause_per_event] iterators the original advanced: the copy reads the
    same catalogs, has as many events, and in parallel mode its schedule
    continues the source sequence where the original stopped; its event
    durations continue the pause sequence likewise. *)
Theorem radio_copy_continues (e : Radio.env) (c : Radio.config) (s s2 : PyRandom.state)
    (r r2 : Radio.radio) (s1 s3 : PyRandom.state) :
  Radio.init e c s = Ok (r, s1) ->
  Radio.init e (radio_copy_config c r) s2 = Ok (r2, s3) ->
  Radio.path_per_source r2 = Radio.path_per_source r /\ s3 = s1 /\
  Radio.maxima_n_events r2 = Radio.maxima_n_events r /\
  Radio.r_duration r2 = Radio.r_duration r /\
  (Radio.interlocking c = "parallel"%string ->
     forall i, (i < Radio.maxima_n_events r)%nat ->
     nth_error (Radio.sample_key_per_event r2) i =
       Some (Str_nth (Radio.maxima_n_events r + i) (Radio.decider_of c), i)) /\
  (Radio.interlocking c <> "parallel"%string ->
     Radio.sample_key_per_event r2 = Radio.sample_key_per_event r) /\
  (forall i, (i < length (Radio.sample_key_per_event r2))%nat ->
     nth i (Radio.duration_per_event r2) 0%Q =
     (Radio.sndinfo_duration e (nth i (Radio.sample_path_per_event r2) ""%string) - 1
      + Str_nth (length (Radio.sample_key_per_event r) + i) (Radio.pause_per_event c))%Q).
Proof.
  intros H1 H2. apply RadioFacts.init_ok_prepare in H1, H2.
  destruct (RadioFacts.prepare_ok_inv _ _ _ _ _ H1) as [D1 [_ [M1 [K1 _]]]].
  destruct (RadioFacts.prepare_ok_inv _ _ _ _ _ H2) as [D2 [_ [M2 [K2 [_ [_ [_ [_ R2]]]]]]]].
  destruct (RadioFacts.event_alignment _ _ _ _ _ H1) as [_ [_ [_ P1]]].
  destruct (RadioFacts.event_alignment _ _ _ _ _ H2) as [_ [_ [A2 _]]].
  change (Radio.detect_files (Radio.listdir e) (Radio.sources c) (Radio.orders_of c)
            (Radio.skips_of c) s2 = Ok (Radio.path_per_source r2, s3)) in D2.
  rewrite (RadioFacts.detect_files_any_state _ _ _ _ s2 s), D1 in D2.
  injection D2 as Hp Hs. rewrite <- Hp in M2, K2.
  change (Radio.maxima_n_events_of (Radio.interlocking c) (Radio.path_per_source r) =
          Ok (Radio.maxima_n_events r2)) in M2.
  rewrite M1 in M2. injection M2 as Hn. rewrite <- Hn in K2.
  change (Radio.sample_keys (Radio.interlocking c) (Radio.path_per_source r)
            (Radio.maxima_n_events r) (Radio.r_source_decider r)
          = (Radio.sample_key_per_event r2, Radio.r_source_decider r2)) in K2.
  split; [congruence | split; [congruence | split; [congruence | split; [exact R2 | split; [| split]]]]].
  - intros Hil i Hi. rewrite Hil, RadioFacts.sample_keys_parallel in K1, K2.
    injection K1 as _ Hd. injection K2 as Hk _. rewrite <- Hk, <- Hd.
    apply ScheduleFacts.combine_seq_nth; [exact Hi |].
    rewrite ScheduleFacts.draws_nth by exact Hi.
    rewrite Str_nth_plus, Nat.add_comm. reflexivity.
  - intros Hil.
    pose proof (RadioFacts.sample_keys_other (Radio.interlocking c) (Radio.path_per_source r)
                  (Radio.maxima_n_events r) (Radio.decider_of c) (Radio.r_source_decider r) Hil) as E.
    rewrite K1, K2 in E. exact (eq_sym E).
  - intros i Hi. rewrite (A2 i Hi).
    change (Radio.pause_per_event (radio_copy_config c r)) with (Radio.r_pause_per_event r).
    rewrite P1, Str_nth_plus, Nat.add_comm. reflexivity.
Qed.


(** [BrokenRadio.detect_files] pairs sources, orders and skips with [zip]:
    it reads only as many sources as the shortest of the three tuples. *)
Theorem detect_files_zip_truncates (ld : string -> option (list string))
    (srcs os : list string) (ks : list Z) (s : PyRandom.state)
    (pps : list (list string)) (s' : PyRandom.state) :
  Radio.detect_files ld srcs os ks s = Ok (pps, s') ->
  length pps = Nat.min (length srcs) (Nat.min (length os) (length ks)).
Proof. exact (RadioFacts2.detect_files_length ld srcs os ks s pps s').
Qed.



(** [BrokenRadio.__init__] with an empty tuple of sources: in parallel mode
    [min] of an empty sequence raises [ValueError]; in sequential mode the
    schedule is empty, its total duration 0, and construction fails with
    "Not enough samples" unless the requested duration is negative. *)
Theorem init_without_sources (e : Radio.env) (c : Radio.config) (s : PyRandom.state) :
  Radio.sources c = [] ->
  (Radio.interlocking c = "parallel"%string ->
     Radio.init e c s = Err (ValueError MinOfEmpty)) /\
  (Radio.interlocking c = "sequential"%string -> (0 <= Radio.duration c)%Q ->
     Radio.init e c s = Err (ValueError (NotEnoughSamples (Radio.duration c) 0))) /\
  (Radio.interlocking c = "sequential"%string -> (Radio.duration c < 0)%Q ->
     exists p, Radio.init e c s = Ok p).
Proof.
  intros Hs.
  assert (Hd : Radio.detect_files (Radio.listdir e) (Radio.sources c) (Radio.orders_of c)
                 (Radio.skips_of c) s = Ok ([], PyRandom.seed 10)) by (rewrite Hs; reflexivity).
  unfold Radio.init, Radio.prepare. cbv zeta. rewrite Hd. cbn [bind fst snd].
  split; [| split]; intros Hil; rewrite Hil.
  - reflexivity.
  - intros H0. cbn. unfold Radio.Qltb.
    replace (Qle_bool 0 (Radio.duration c)) with true by (symmetry; apply Qle_bool_iff, H0).
    reflexivity.
  - intros H0. cbn. unfold Radio.Qltb.
    replace (Qle_bool 0 (Radio.duration c)) with false.
    + eexists; reflexivity.
    + symmetry. apply not_true_iff_false. rewrite Qle_bool_iff. lra.
Qed.


Module DictCopyFacts.
Import SharedDefaults.

Lemma fill_effect_present act lvl h name :
  is_Some (dict_get h act !! name) -> is_Some (dict_get h lvl !! name) ->
  fill_effect act lvl h name = h.
Proof.
  intros [x Hx] [y Hy]. unfold fill_effect. rewrite Hx, Hy. reflexivity.
Qed.

Lemma fold_fill_present act lvl names h :
  (forall name, In name names ->
     is_Some (dict_get h act !! name) /\ is_Some (dict_get h lvl !! name)) ->
  fold_left (fill_effect act lvl) names h = h.
Proof.
  induction names as [|n0 r IH]; intros H; [reflexivity |]. cbn [fold_left].
  destruct (H n0 (or_introl eq_refl)) as [Ha Hl].
  rewrite (fill_effect_present act lvl h n0 Ha Hl). apply IH.
  intros name Hin. apply H. right. exact Hin.
Qed.

End DictCopyFacts.

(** [BrokenRadio.copy] passes the instance's own [activity_lv_per_effect]
    and [level_per_effect] dictionaries: the copy keeps the very same two
    dictionaries, and since the first construction already filled them
    with every effect, building the copy changes nothing on the heap. *)
Theorem copy_shares_effect_dicts (h : SharedDefaults.heap)
    (act_arg lvl_arg : option SharedDefaults.loc) :
  let act := match act_arg with Some l => l | None => SharedDefaults.default_activity_lv_per_effect end in
  let lvl := match lvl_arg with Some l => l | None => SharedDefaults.default_level_per_effect end in
  (act < SharedDefaults.next_loc h)%positive -> (lvl < SharedDefaults.next_loc h)%positive ->
  let inst := fst (SharedDefaults.init_dicts h act_arg lvl_arg) in
  let h' := snd (SharedDefaults.init_dicts h act_arg lvl_arg) in
  SharedDefaults.init_dicts h' (Some (SharedDefaults.activity_lv_per_effect inst))
    (Some (SharedDefaults.level_per_effect inst)) = (inst, h').
Proof.
  intros act lvl Ha Hl inst h'.
  assert (Hh' : h' = fold_left (SharedDefaults.fill_effect act lvl) SharedDefaults.effect_names h)
    by reflexivity.
  change inst with (SharedDefaults.mkInstance lvl act).
  unfold SharedDefaults.init_dicts. cbn [SharedDefaults.activity_lv_per_effect SharedDefaults.level_per_effect].
  f_equal. apply DictCopyFacts.fold_fill_present.
  rewrite Hh'. apply DefaultsFacts.fold_fill_has; assumption.
Qed.

Lemma radio_event_durations_witness :
  Radio.prepare MoreSamples.two_env MoreSamples.two_config (PyRandom.seed 0)
    = Ok (fst MoreSamples.two_prepared, snd MoreSamples.two_prepared) /\
  nth 1 (Radio.duration_per_event (fst MoreSamples.two_prepared)) 0%Q =
  (Radio.sndinfo_duration MoreSamples.two_env
     (nth 1 (Radio.sample_path_per_event (fst MoreSamples.two_prepared)) ""%string) - 1
   + Str_nth 1 (Radio.pause_per_event MoreSamples.two_config))%Q.
Proof.
  assert (H : Radio.prepare MoreSamples.two_env MoreSamples.two_config (PyRandom.seed 0)
              = Ok (fst MoreSamples.two_prepared, snd MoreSamples.two_prepared))
    by (vm_compute; reflexivity).
  split; [exact H |].
  destruct (radio_event_durations _ _ _ _ _ H) as [_ [_ [Hn _]]].
  apply Hn. vm_compute. reflexivity.
Defined.

Lemma radio_copy_continues_witness :
  Radio.init MoreSamples.two_env MoreSamples.two_config (PyRandom.seed 0)
    = Ok (fst ExtraSamples.two_built, snd ExtraSamples.two_built) /\
  Radio.init MoreSamples.two_env
    (radio_copy_config MoreSamples.two_config (fst ExtraSamples.two_built)) (PyRandom.seed 5)
    = Ok (fst ExtraSamples.two_copy_built, snd ExtraSamples.two_copy_built) /\
  nth_error (Radio.sample_key_per_event (fst ExtraSamples.two_copy_built)) 1 =
    Some (Str_nth (Radio.maxima_n_events (fst ExtraSamples.two_built) + 1)
            (Radio.decider_of MoreSamples.two_config), 1%nat).
Proof.
  assert (H1 : Radio.init MoreSamples.two_env MoreSamples.two_config (PyRandom.seed 0)
               = Ok (fst ExtraSamples.two_built, snd ExtraSamples.two_built))
    by (vm_compute; reflexivity).
  assert (H2 : Radio.init MoreSamples.two_env
                 (radio_copy_config MoreSamples.two_config (fst ExtraSamples.two_built))
                 (PyRandom.seed 5)
               = Ok (fst ExtraSamples.two_copy_built, snd ExtraSamples.two_copy_built))
    by (vm_compute; reflexivity).
  split; [exact H1 | split; [exact H2 |]].
  destruct (radio_copy_continues _ _ _ _ _ _ _ _ H1 H2) as [_ [_ [_ [_ [Hp _]]]]].
  apply Hp; vm_compute; reflexivity.
Defined.


Lemma detect_files_zip_truncates_witness :
  Radio.detect_files (Radio.listdir MoreSamples.two_env) ["x/"; "y/"] ["original"] [0; 0]
    (PyRandom.seed 0) = Ok ([["x/1.wav"; "x/2.wav"]], PyRandom.seed 10) /\
  length [["x/1.wav"; "x/2.wav"]] = Nat.min 2 (Nat.min 1 2).
Proof.
  assert (H : Radio.detect_files (Radio.listdir MoreSamples.two_env) ["x/"; "y/"] ["original"] [0; 0]
                (PyRandom.seed 0) = Ok ([["x/1.wav"; "x/2.wav"]], PyRandom.seed 10))
    by (vm_compute; reflexivity).
  split; [exact H | exact (detect_files_zip_truncates _ _ _ _ _ _ _ H)].
Defined.



Lemma init_without_sources_witness :
  Radio.init MoreSamples.two_env (MoreSamples.no_sources "parallel" 2) (PyRandom.seed 0)
    = Err (ValueError MinOfEmpty) /\
  Radio.init MoreSamples.two_env (MoreSamples.no_sources "sequential" 2) (PyRandom.seed 0)
    = Err (ValueError (NotEnoughSamples 2 0)).
Proof.
  split.
  - exact (proj1 (init_without_sources MoreSamples.two_env (MoreSamples.no_sources "parallel" 2)
                    (PyRandom.seed 0) eq_refl) eq_refl).
  - apply (proj1 (proj2 (init_without_sources MoreSamples.two_env
                           (MoreSamples.no_sources "sequential" 2) (PyRandom.seed 0) eq_refl)));
      [reflexivity | vm_compute; discriminate].
Defined.


Lemma copy_shares_effect_dicts_witness :
  (SharedDefaults.default_activity_lv_per_effect < SharedDefaults.next_loc Samples.fresh_heap)%positive /\
  (SharedDefaults.default_level_per_effect < SharedDefaults.next_loc Samples.fresh_heap)%positive /\
  SharedDefaults.init_dicts (snd (SharedDefaults.init_dicts Samples.fresh_heap None None))
    (Some SharedDefaults.default_activity_lv_per_effect)
    (Some SharedDefaults.default_level_per_effect)
  = (fst (SharedDefaults.init_dicts Samples.fresh_heap None None),
     snd (SharedDefaults.init_dicts Samples.fresh_heap None None)).
Proof.
  assert (Ha : (SharedDefaults.default_activity_lv_per_effect
                < SharedDefaults.next_loc Samples.fresh_heap)%positive) by reflexivity.
  assert (Hl : (SharedDefaults.default_level_per_effect
                < SharedDefaults.next_loc Samples.fresh_heap)%positive) by reflexivity.
  split; [exact Ha | split; [exact Hl |]].
  exact (copy_shares_effect_dicts Samples.fresh_heap None None Ha Hl).
Defined.

Module RenderShape.
Import Radio Render.

Lemma lv_loop_lengths n es objs :
  Forall (fun el => length (snd el) = n) (fst (lv_per_effect_loop n es objs)).
Proof.
  revert objs. induction es as [|e r IH]; intros objs; [constructor |].
  cbn [lv_per_effect_loop]. cbv zeta.
  pose proof (RenderFacts.effect_levels_length n (activity_object (objs e)) (activity_lv (objs e))
                (level (objs e))) as Hl.
  destruct (effect_levels n _ _ _) as [[xs g'] lvl']. cbn [fst] in Hl.
  match goal with |- context [lv_per_effect_loop n r ?f] => specialize (IH f) end.
  destruct (lv_per_effect_loop n r _) as [rest objs'']. cbn [fst snd] in *.
  constructor; [exact Hl | exact IH].
Qed.

End RenderShape.

(** [BrokenRadio.__init__] draws from the [source_decider] iterator once per
    event in parallel mode and never in sequential mode; the iterator it
    keeps is the advanced one. *)
Theorem radio_source_decider_advance (e : Radio.env) (c : Radio.config) (s : PyRandom.state)
    (r : Radio.radio) (s' : PyRandom.state) :
  Radio.prepare e c s = Ok (r, s') ->
  (Radio.interlocking c = "parallel"%string ->
     Radio.r_source_decider r = Str_nth_tl (Radio.maxima_n_events r) (Radio.decider_of c) /\
     length (Radio.sample_key_per_event r) = Radio.maxima_n_events r) /\
  (Radio.interlocking c = "sequential"%string ->
     Radio.r_source_decider r = Radio.decider_of c).
Proof.
  intros H. destruct (RadioFacts.prepare_ok_inv _ _ _ _ _ H) as [_ [_ [_ [K _]]]].
  split; intros Hil; rewrite Hil in K.
  - rewrite RadioFacts.sample_keys_parallel in K. injection K as Hk Hd.
    split; [exact (eq_sym Hd) |].
    rewrite <- Hk, length_combine, ScheduleFacts.draws_length, length_seq. lia.
  - unfold Radio.sample_keys in K. cbn [String.eqb] in K. injection K as _ Hd. exact (eq_sym Hd).
Qed.

(** [BrokenRadio.render]: the per-event tuples handed to [pyo.Events]
    ([dur], [path], [ambient_noise_lv] and every effect level) all have the
    same length, the number of events kept by the duration budget (or all
    events when the budget index is larger). *)
Theorem render_events_aligned (r : Radio.radio) (objs : Render.effect -> Render.effect_obj)
    (s : PyRandom.state) :
  let out := fst (fst (Render.render r objs s)) in
  length (Radio.sample_path_per_event r) = length (Radio.duration_per_event r) ->
  length (Render.ro_duration_per_event out) =
    Nat.min (Render.n_events out) (length (Radio.duration_per_event r)) /\
  length (Render.ro_sample_path_per_event out) = length (Render.ro_duration_per_event out) /\
  length (Render.ambient_noise_lv_per_event out) = length (Render.ro_duration_per_event out) /\
  map fst (Render.lv_per_effect out) = Render.effects /\
  Forall (fun el => length (snd el) = length (Render.ro_duration_per_event out))
    (Render.lv_per_effect out).
Proof.
  intros out Hlen. unfold out, Render.render. cbv zeta.
  set (n := Render.budget (Radio.r_duration r) (Radio.duration_per_event r)).
  pose proof (RenderShape.lv_loop_lengths (length (firstn n (Radio.duration_per_event r)))
                Render.effects objs) as Hlv.
  pose proof (proj1 (RenderFacts.lv_loop_spec (length (firstn n (Radio.duration_per_event r)))
                       Render.effects objs RenderFacts.effects_nodup)) as Hmap.
  pose proof (RenderFacts.uniform_draws_length (length (firstn n (Radio.duration_per_event r)))
                (1 # 5) (2 # 5) (PyRandom.seed 1)) as Hu.
  destruct (Render.lv_per_effect_loop _ Render.effects objs) as [lvs objs'].
  destruct (Render.uniform_draws _ (1 # 5) (2 # 5) (PyRandom.seed 1)) as [us s1].
  cbn [fst snd Render.ro_duration_per_event Render.ro_sample_path_per_event
       Render.ambient_noise_lv_per_event Render.lv_per_effect Render.n_events] in *.
  rewrite !length_firstn. rewrite length_firstn in Hlv, Hu.
  split; [reflexivity | split; [rewrite Hlen; reflexivity | split; [| split; [exact Hmap | exact Hlv]]]].
  rewrite length_combine. cbn [length]. lia.
Qed.

Lemma radio_source_decider_advance_witness :
  Radio.prepare MoreSamples.two_env MoreSamples.two_config (PyRandom.seed 0)
    = Ok (fst MoreSamples.two_prepared, snd MoreSamples.two_prepared) /\
  Radio.r_source_decider (fst MoreSamples.two_prepared) =
    Str_nth_tl (Radio.maxima_n_events (fst MoreSamples.two_prepared))
      (Radio.decider_of MoreSamples.two_config).
Proof.
  assert (H : Radio.prepare MoreSamples.two_env MoreSamples.two_config (PyRandom.seed 0)
              = Ok (fst MoreSamples.two_prepared, snd MoreSamples.two_prepared))
    by (vm_compute; reflexivity).
  split; [exact H |].
  exact (proj1 (proj1 (radio_source_decider_advance _ _ _ _ _ H) eq_refl)).
Defined.

Lemma render_events_aligned_witness :
  length (Radio.sample_path_per_event Samples.plain_radio) =
    length (Radio.duration_per_event Samples.plain_radio) /\
  length (Render.ro_sample_path_per_event
            (fst (fst (Render.render Samples.plain_radio (Samples.const_objs true) (PyRandom.seed 0))))) =
  length (Render.ro_duration_per_event
            (fst (fst (Render.render Samples.plain_radio (Samples.const_objs true) (PyRandom.seed 0))))).
Proof.
  assert (H : length (Radio.sample_path_per_event Samples.plain_radio) =
              length (Radio.duration_per_event Samples.plain_radio)) by reflexivity.
  split; [exact H |].
  exact (proj1 (proj2 (render_events_aligned Samples.plain_radio (Samples.const_objs true)
                         (PyRandom.seed 0) H))).
Defined.
